(** * topay-wallet: the wallet core of [src/wallet.js]

    A shallow embedding of [TopayWallet] (src/wallet.js) with the errors of
    src/error.js and the interface of [TopayRestClient] (src/rest-client.js),
    followed by the properties of the wallet core.

    Conventions of the embedding.

    - A JavaScript method that may throw, read or write [this._walletIndex]
      or call the REST client is a computation in the monad [M]: it maps a
      [State] to an [Outcome] (returned value or thrown exception) and the
      state in which it stops.  The state is kept when an exception is
      thrown, as the fields of a JavaScript object are.
    - [await] on the REST client is a call to one of the four methods of the
      client, recorded in the request log of the state.  A client answers as
      a function of the requests made before and of its argument, so that a
      backend whose answers change over time is a client too.
    - Satoshi amounts are JavaScript numbers holding integers; they are
      modelled on [Z] (sums of satoshis stay far below 2^53, where the
      arithmetic of doubles on integers is exact).  The one computation of
      the wallet that leaves the integers, [Math.ceil(bytes * 1.1)], is
      modelled on IEEE-754 binary64 with [SpecFloat].
    - bitcoincashjs is outside the repository.  Key derivation, address
      validation and serialization are operations of the class
      [Bitcoincashjs].  The transaction builder ([from], [to], [sign]) is
      modelled by what it records in the transaction and by when it throws:
      [from] skips an unspent output the transaction already holds, [to]
      refuses an amount that is not a natural number, and what else the
      library refuses (an unspent output, an address, a transaction to sign)
      is told by operations of the class.
    - The answers of the REST client are typed as the Insight API gives
      them: the data of an address has its [transactions], an unspent output
      its five fields, with integer amounts. *)

From Stdlib Require Import ZArith List String Ascii Bool Lia DecimalString.
From Stdlib Require Import Floats.SpecFloat.
Import ListNotations.

Create HintDb wallet.

Open Scope string_scope.
Open Scope list_scope.
Open Scope Z_scope.

(** ** Errors *)

(** The exceptions of the code.  The wallet and the REST client throw two
    of their own: the error of [checkArgument] (package conditional), which
    carries the message given as second argument, and [TopayError]
    (src/error.js), built from a title and a detail (its message is
    [`${title}: ${detail}`]).  Two come from below them: an error thrown by
    bitcoincashjs, told by its name, and the [TypeError] of JavaScript for a
    method call on a value that has no such method. *)
Inductive Exception : Type :=
| IllegalArgumentError (message : string)
| TopayError (title detail : string)
| BitcoreError (name : string)
| TypeError.

(** The error of a failed argument check inside bitcoincashjs. *)
Definition ErrorInvalidArgument : Exception :=
  BitcoreError "bitcore.ErrorInvalidArgument".

(** The error taxonomy of the specification. *)
Inductive ErrorKind : Type :=
| InvalidArgument
| InsufficientFunds
| InsufficientHistory
| CommunicationError.

(** The kind of an exception of the code: failed argument checks are
    [InvalidArgument]; a [TopayError] is told by its title, the one of
    [_buildTransaction] or the one of the REST client
    (src/rest-client.js, [_unwrap]).  The errors of bitcoincashjs and of
    JavaScript are none of the wallet's kinds. *)
Definition kindOf (e : Exception) : option ErrorKind :=
  match e with
  | IllegalArgumentError _ => Some InvalidArgument
  | TopayError title _ =>
      if String.eqb title "Cannot create transaction" then Some InsufficientFunds
      else if String.eqb title "Communication error" then Some CommunicationError
      else None
  | BitcoreError _ | TypeError => None
  end.

Inductive Outcome (A : Type) : Type :=
| Returned (a : A)
| Thrown (e : Exception).
Arguments Returned {A} a.
Arguments Thrown {A} e.

Definition Outcome_map {A B : Type} (f : A -> B) (o : Outcome A) : Outcome B :=
  match o with
  | Returned a => Returned (f a)
  | Thrown e => Thrown e
  end.

(** An outcome fails with a kind of the taxonomy. *)
Definition failsWith {A : Type} (k : ErrorKind) (o : Outcome A) : Prop :=
  exists e, o = Thrown e /\ kindOf e = Some k.

(** ** JavaScript values and numbers *)

(** Numbers are binary64 floating-point numbers. *)
Module Number.
Definition prec : Z := 53.
Definition emax : Z := 1024.

Definition of_Z (z : Z) : spec_float := binary_normalize prec emax z 0 false.
Definition mul : spec_float -> spec_float -> spec_float := SFmul prec emax.
Definition div : spec_float -> spec_float -> spec_float := SFdiv prec emax.

(** The literal [1.1]: the double nearest to 11/10. *)
Definition lit_1_1 : spec_float := S754_finite false 4953959590107546 (-52).

(** [Number.isInteger] on a number: finite with no fractional part. *)
Definition isInteger (x : spec_float) : bool :=
  match x with
  | S754_zero _ => true
  | S754_finite _ m e => (0 <=? e) || (Zpos m mod 2 ^ (- e) =? 0)
  | S754_infinity _ | S754_nan => false
  end.

(** [Math.ceil] of a finite number, as an integer.  On the infinities and
    NaN, where [Math.ceil] has no integer to give, the model answers 0
    ([is_finite] tells the two apart). *)
Definition ceil (x : spec_float) : Z :=
  match x with
  | S754_finite s m e =>
      let v := cond_Zopp s (Zpos m) in
      if 0 <=? e then v * 2 ^ e else - ((- v) / 2 ^ (- e))
  | _ => 0
  end.

(** The integer held by a number that passed [isInteger]. *)
Definition to_Z (x : spec_float) : Z := ceil x.

(** [n] is the least integer not below the finite number [x], whose value
    is [m * 2^e] with the sign [s]. *)
Definition is_ceiling (n : Z) (x : spec_float) : Prop :=
  match x with
  | S754_zero _ => n = 0
  | S754_finite s m e =>
      let v := cond_Zopp s (Zpos m) in
      if 0 <=? e then n = v * 2 ^ e
      else (n - 1) * 2 ^ (- e) < v <= n * 2 ^ (- e)
  | S754_infinity _ | S754_nan => False
  end.

Definition is_finite (x : spec_float) : bool :=
  match x with
  | S754_zero _ | S754_finite _ _ _ => true
  | S754_infinity _ | S754_nan => false
  end.
End Number.

Inductive JsValue : Type :=
| JsUndefined
| JsNull
| JsBoolean (b : bool)
| JsString (s : string)
| JsNumber (x : spec_float).

(** [Number.isInteger(v)]: false on everything that is not a number. *)
Definition Number_isInteger (v : JsValue) : bool :=
  match v with
  | JsNumber x => Number.isInteger x
  | _ => false
  end.

(** [v === undefined] *)
Definition isUndefined (v : JsValue) : bool :=
  match v with
  | JsUndefined => true
  | _ => false
  end.

Definition JsValue_toInteger (v : JsValue) : Z :=
  match v with
  | JsNumber x => Number.to_Z x
  | _ => 0
  end.

(** An integer as a JavaScript value. *)
Definition JsInteger (z : Z) : JsValue := JsNumber (Number.of_Z z).

(** ** Data of the wallet *)

(** An element of the answer of [getUtxoSet] (Insight API). *)
Record Utxo : Type := {
  txid : string;
  vout : Z;
  utxo_address : string;
  scriptPubKey : string;
  utxo_satoshis : Z
}.

(** A transaction input, as [_getAvailableInputs] builds it. *)
Record Input : Type := {
  txId : string;
  outputIndex : Z;
  address : string;
  script : string;
  satoshis : Z
}.

(** The answer of [getAddress]; the wallet reads [transactions.length]. *)
Record AddressData : Type := {
  transactions : list string
}.

Record Output : Type := {
  output_address : string;
  output_satoshis : Z
}.

(** A transaction of bitcoincashjs, by what the builder recorded: the
    inputs given to [from], the outputs added by [to] in order, the keys
    given to [sign]. *)
Record Transaction (PrivateKey : Type) : Type := {
  tx_inputs : list Input;
  tx_outputs : list Output;
  tx_signedWith : list PrivateKey
}.
Arguments tx_inputs {PrivateKey} t.
Arguments tx_outputs {PrivateKey} t.
Arguments tx_signedWith {PrivateKey} t.


(** What the wallet uses of bitcoincashjs, for the seed of the wallet.  The
    last three operations tell what the transaction builder refuses, each by
    the name of the error thrown ([None]: accepted). *)
Class Bitcoincashjs : Type := {
  PublicKey : Type;
  PrivateKey : Type;
  (** [this._hdPublicKey.derive(index).publicKey] *)
  hdPublicKey_derive : Z -> PublicKey;
  (** [this._hdPrivateKey.derive(index).privateKey] *)
  hdPrivateKey_derive : Z -> PrivateKey;
  (** [publicKey.toAddress().toString()] *)
  PublicKey_toAddress : PublicKey -> string;
  (** [Address.isValid(recipient, 'livenet')] *)
  Address_isValid : string -> bool;
  (** [transaction.toString()]: the serialization in hexadecimal *)
  Transaction_toString : Transaction PrivateKey -> string;
  (** [new Address(address)], which [to] runs on its first argument *)
  Address_error : string -> option string;
  (** the unspent output and the input [from] makes of an element of its
      argument *)
  UnspentOutput_error : Input -> option string;
  (** [sign] on a transaction that holds these inputs *)
  sign_error : list Input -> option string
}.

(** A transaction id as an input of a transaction gives it back
    ([prevTxId.toString('hex')]): in lowercase digits. *)
Definition lowercaseDigit (c : ascii) : ascii :=
  match c with
  | "A" => "a" | "B" => "b" | "C" => "c" | "D" => "d" | "E" => "e" | "F" => "f"
  | _ => c
  end%char.

Fixpoint lowercaseHex (s : string) : string :=
  match s with
  | EmptyString => EmptyString
  | String c rest => String (lowercaseDigit c) (lowercaseHex rest)
  end.

(** The test of [from] that an input the transaction holds spends the
    unspent output it is given: the transaction id of the input, in
    lowercase, is the [txId] given and the output indices are equal. *)
Definition sameOutpoint (held utxo : Input) : bool :=
  String.eqb (lowercaseHex (txId held)) (txId utxo)
  && (outputIndex held =? outputIndex utxo).

Section TransactionBuilder.
Context {lib : Bitcoincashjs}.

(** [new Transaction()] *)
Definition new_Transaction : Transaction PrivateKey :=
  {| tx_inputs := []; tx_outputs := []; tx_signedWith := [] |}.

(** [transaction.from(utxo)] on one unspent output: nothing is done when
    the transaction already holds it; otherwise it is checked and added as
    the last input. *)
Definition Transaction_from1 (t : Transaction PrivateKey) (utxo : Input)
    : Outcome (Transaction PrivateKey) :=
  if existsb (fun input => sameOutpoint input utxo) (tx_inputs t) then Returned t
  else
    match UnspentOutput_error utxo with
    | Some name => Thrown (BitcoreError name)
    | None =>
        Returned {| tx_inputs := tx_inputs t ++ [utxo];
                    tx_outputs := tx_outputs t;
                    tx_signedWith := tx_signedWith t |}
    end.

(** [transaction.from(inputs)] on an array: [from] on each element in
    turn. *)
Fixpoint Transaction_from (t : Transaction PrivateKey) (inputs : list Input)
    : Outcome (Transaction PrivateKey) :=
  match inputs with
  | [] => Returned t
  | utxo :: rest =>
      match Transaction_from1 t utxo with
      | Returned t' => Transaction_from t' rest
      | Thrown e => Thrown e
      end
  end.

(** [transaction.to(address, amount)]: the amount has to be a natural
    number; the address is then parsed and the output added. *)
Definition Transaction_to (t : Transaction PrivateKey) (addr : string) (amount : Z)
    : Outcome (Transaction PrivateKey) :=
  if amount <? 0 then Thrown ErrorInvalidArgument
  else
    match Address_error addr with
    | Some name => Thrown (BitcoreError name)
    | None =>
        Returned {| tx_inputs := tx_inputs t;
                    tx_outputs := tx_outputs t
                                  ++ [ {| output_address := addr;
                                          output_satoshis := amount |} ];
                    tx_signedWith := tx_signedWith t |}
    end.

(** [transaction.sign(privateKey)] *)
Definition Transaction_sign (t : Transaction PrivateKey) (key : PrivateKey)
    : Outcome (Transaction PrivateKey) :=
  match sign_error (tx_inputs t) with
  | Some name => Thrown (BitcoreError name)
  | None =>
      Returned {| tx_inputs := tx_inputs t;
                  tx_outputs := tx_outputs t;
                  tx_signedWith := tx_signedWith t ++ [key] |}
  end.
End TransactionBuilder.

(** ** The REST client, as the wallet sees it *)

Inductive Request : Type :=
| GetAddress (address : string)
| GetBalance (address : string)
| GetUtxoSet (address : string)
| SendTransaction (rawtx : string).

(** The four methods of [TopayRestClient] the wallet calls.  Each answers
    from the requests made so far and its argument, by a value or by a
    thrown exception. *)
Module TopayRestClient.
Record t : Type := {
  getAddress : list Request -> string -> Outcome AddressData;
  getBalance : list Request -> string -> Outcome Z;
  getUtxoSet : list Request -> string -> Outcome (list Utxo);
  sendTransaction : list Request -> string -> Outcome string
}.
End TopayRestClient.

(** ** State and computations *)

(** The mutable part of a wallet, [this._walletIndex], and the log of the
    requests made to the REST client. *)
Record State : Type := {
  _walletIndex : Z;
  requests : list Request
}.

Definition M (A : Type) : Type := State -> Outcome A * State.

Definition ret {A : Type} (a : A) : M A := fun st => (Returned a, st).

Definition throw {A : Type} (e : Exception) : M A := fun st => (Thrown e, st).

Definition bind {A B : Type} (m : M A) (k : A -> M B) : M B :=
  fun st =>
    match m st with
    | (Returned a, st') => k a st'
    | (Thrown e, st') => (Thrown e, st')
    end.

Declare Scope wallet_scope.
Delimit Scope wallet_scope with wallet.
Notation "x <- m ;; k" := (bind m (fun x => k))
  (at level 100, m at next level, right associativity) : wallet_scope.
Notation "m ;;; k" := (bind m (fun _ => k))
  (at level 100, right associativity) : wallet_scope.
Open Scope wallet_scope.

(** Reading and writing [this._walletIndex]. *)
Definition get_walletIndex : M Z := fun st => (Returned (_walletIndex st), st).

Definition set_walletIndex (i : Z) : M unit :=
  fun st => (Returned tt, {| _walletIndex := i; requests := requests st |}).

(** [await] of a method of the client: the request is logged and the answer
    of the client is the outcome. *)
Definition await {A : Type} (method : list Request -> string -> Outcome A)
    (req : string -> Request) (arg : string) : M A :=
  fun st =>
    (method (requests st) arg,
     {| _walletIndex := _walletIndex st; requests := requests st ++ [req arg] |}).

(** [checkArgument(condition, message)] of package conditional. *)
Definition checkArgument (condition : bool) (message : string) : M unit :=
  if condition then ret tt else throw (IllegalArgumentError message).

(** A call into bitcoincashjs: it returns or throws, and leaves the wallet
    as it is. *)
Definition call {A : Type} (o : Outcome A) : M A := fun st => (o, st).

(** ** The wallet (src/wallet.js) *)

(** Fields the constructor assigns once and no method writes:
    [this._maxWalletIndex = 1000] and [this._satoshisPerByte = 1.1]. *)
Definition _maxWalletIndex : Z := 1000.

Definition _satoshisPerByte : spec_float := Number.lit_1_1.

(** The state the constructor leaves: [this._walletIndex = 0], nothing
    requested yet. *)
Definition new_TopayWallet : State := {| _walletIndex := 0; requests := [] |}.

(** [inputs.reduce((total, input) => total + input.satoshis, 0)] *)
Definition inputs_balance (inputs : list Input) : Z :=
  fold_left (fun total input => total + satoshis input) inputs 0.

(** The normalization of [_getAvailableInputs]:
    [utxo => ({ txId: utxo.txid, outputIndex: utxo.vout, ... })]. *)
Definition input_of_utxo (utxo : Utxo) : Input :=
  {| txId := txid utxo;
     outputIndex := vout utxo;
     address := utxo_address utxo;
     script := scriptPubKey utxo;
     satoshis := utxo_satoshis utxo |}.

Section Wallet.
Context {lib : Bitcoincashjs}.
Variable restClient : TopayRestClient.t.

(** The test of [_getPrivateKey] and [_getPublicKey] on an integer index:
    [index >= 0 && index <= this._maxWalletIndex]. *)
Definition index_inRange (index : Z) : bool :=
  (0 <=? index) && (index <=? _maxWalletIndex).

(** wallet.js, 202-208 *)
Definition _getPrivateKey (index : Z) : M PrivateKey :=
  checkArgument (index_inRange index) "index" ;;;
  ret (hdPrivateKey_derive index).

(** wallet.js, 216-222 *)
Definition _getPublicKey (index : Z) : M PublicKey :=
  checkArgument (index_inRange index) "index" ;;;
  ret (hdPublicKey_derive index).

(** wallet.js, 231-233 *)
Definition _getAddress (index : Z) : M string :=
  publicKey <- _getPublicKey index ;;
  ret (PublicKey_toAddress publicKey).

(** The loop of [_updateWalletIndex] (wallet.js, 118-125), run for at most
    [fuel] iterations. *)
Fixpoint _updateWalletIndex_loop (fuel : nat) : M unit :=
  match fuel with
  | O => ret tt
  | S fuel' =>
      walletIndex <- get_walletIndex ;;
      if walletIndex <? _maxWalletIndex then
        address <- _getAddress walletIndex ;;
        data <- await (TopayRestClient.getAddress restClient) GetAddress address ;;
        if (List.length (transactions data) =? 0)%nat then ret tt
        else
          set_walletIndex (walletIndex + 1) ;;;
          _updateWalletIndex_loop fuel'
      else ret tt
  end.

(** wallet.js, 117-126.  Every iteration that goes on increments the index,
    so [_maxWalletIndex - _walletIndex] iterations are enough
    (lemma [_updateWalletIndex_unfold]). *)
Definition _updateWalletIndex : M unit :=
  walletIndex <- get_walletIndex ;;
  _updateWalletIndex_loop (Z.to_nat (_maxWalletIndex - walletIndex)).

(** One iteration of the [while] loop of [_updateWalletIndex], followed by
    the rest of the loop. *)
Definition _updateWalletIndex_step (rest : M unit) : M unit :=
  walletIndex <- get_walletIndex ;;
  if walletIndex <? _maxWalletIndex then
    address <- _getAddress walletIndex ;;
    data <- await (TopayRestClient.getAddress restClient) GetAddress address ;;
    if (List.length (transactions data) =? 0)%nat then ret tt
    else
      set_walletIndex (walletIndex + 1) ;;;
      rest
  else ret tt.

(** wallet.js, 133-143 *)
Definition _getAvailableInputs : M (list Input) :=
  walletIndex <- get_walletIndex ;;
  address <- _getAddress (walletIndex - 1) ;;
  utxoSet <- await (TopayRestClient.getUtxoSet restClient) GetUtxoSet address ;;
  ret (map input_of_utxo utxoSet).

(** wallet.js, 175-194 *)
Definition _buildTransaction (inputs : list Input) (recipient : string)
    (amount fee : Z) : M (Transaction PrivateKey) :=
  let balance := inputs_balance inputs in
  if balance <? amount + fee then
    throw (TopayError "Cannot create transaction" "Insufficient funds.")
  else
    let change := balance - amount - fee in
    walletIndex <- get_walletIndex ;;
    changeAddress <- _getAddress walletIndex ;;
    privateKey <- _getPrivateKey (walletIndex - 1) ;;
    transaction <- call (Transaction_from new_Transaction inputs) ;;
    transaction <-
      (if negb (String.eqb recipient changeAddress) then
         transaction <- call (Transaction_to transaction recipient amount) ;;
         if 0 <? change then call (Transaction_to transaction changeAddress change)
         else ret transaction
       else call (Transaction_to transaction recipient (amount + change))) ;;
    transaction <- call (Transaction_sign transaction privateKey) ;;
    ret transaction.

(** [transaction.toString().length / 2], a number. *)
Definition transactionBytes (transaction : Transaction PrivateKey) : spec_float :=
  Number.div
    (Number.of_Z (Z.of_nat (String.length (Transaction_toString transaction))))
    (Number.of_Z 2).

(** wallet.js, 154-158 *)
Definition _calculateFee (inputs : list Input) (recipient : string)
    (amount : Z) : M Z :=
  transaction <- _buildTransaction inputs recipient amount 0 ;;
  ret (Number.ceil (Number.mul (transactionBytes transaction) _satoshisPerByte)).

(** wallet.js, 37-39 *)
Definition initialize : M unit :=
  _updateWalletIndex.

(** wallet.js, 46-54 *)
Definition getBalance : M Z :=
  _updateWalletIndex ;;;
  walletIndex <- get_walletIndex ;;
  if walletIndex =? 0 then ret 0
  else
    address <- _getAddress (walletIndex - 1) ;;
    balance <- await (TopayRestClient.getBalance restClient) GetBalance address ;;
    ret balance.

(** wallet.js, 61-64 *)
Definition getReceiveAddress : M string :=
  _updateWalletIndex ;;;
  walletIndex <- get_walletIndex ;;
  _getAddress walletIndex.

(** wallet.js, 78-90.  [amount] and [fee] arrive as JavaScript values; past
    the three checks they are integers. *)
Definition send (recipient : string) (amount fee : JsValue) : M string :=
  checkArgument (Address_isValid recipient) "recipient" ;;;
  checkArgument (Number_isInteger amount) "amount" ;;;
  checkArgument (isUndefined fee || Number_isInteger fee) "fee" ;;;
  let amount := JsValue_toInteger amount in
  _updateWalletIndex ;;;
  inputs <- _getAvailableInputs ;;
  fee <- (if isUndefined fee then _calculateFee inputs recipient amount
          else ret (JsValue_toInteger fee)) ;;
  transaction <- _buildTransaction inputs recipient amount fee ;;
  transactionId <- await (TopayRestClient.sendTransaction restClient) SendTransaction
                     (Transaction_toString transaction) ;;
  ret transactionId.

(** wallet.js, 100-109 *)
Definition widthraw (recipient : string) : M string :=
  checkArgument (Address_isValid recipient) "recipient" ;;;
  _updateWalletIndex ;;;
  inputs <- _getAvailableInputs ;;
  let balance := inputs_balance inputs in
  fee <- _calculateFee inputs recipient balance ;;
  transaction <- _buildTransaction inputs recipient (balance - fee) fee ;;
  transactionId <- await (TopayRestClient.sendTransaction restClient) SendTransaction
                     (Transaction_toString transaction) ;;
  ret transactionId.

End Wallet.

(** The address of an index, [derive(index).publicKey.toAddress().toString()]. *)
Definition addressAt {lib : Bitcoincashjs} (index : Z) : string :=
  PublicKey_toAddress (hdPublicKey_derive index).

(** ** Predicates of the statements *)

(** The bounds of the wallet index. *)
Definition walletIndex_inv (st : State) : Prop :=
  0 <= _walletIndex st <= _maxWalletIndex.

(** A computation keeps the wallet index within its bounds and never
    moves it backward. *)
Definition advances {A : Type} (m : M A) : Prop :=
  forall st,
    walletIndex_inv st ->
    walletIndex_inv (snd (m st)) /\ _walletIndex st <= _walletIndex (snd (m st)).

(** A request of the address scan. *)
Definition isGetAddress (r : Request) : Prop :=
  exists a, r = GetAddress a.

(** A client whose history answers depend on the address alone and never
    fail: [history] is its history function. *)
Definition answersHistory (restClient : TopayRestClient.t)
    (history : string -> list string) : Prop :=
  forall log a,
    TopayRestClient.getAddress restClient log a
    = Returned {| transactions := history a |}.

(** [r] is the first index from [i0] on whose address has no history, or
    [_maxWalletIndex] when there is none below it. *)
Definition firstUnusedFrom {lib : Bitcoincashjs} (history : string -> list string)
    (i0 r : Z) : Prop :=
  i0 <= r <= _maxWalletIndex
  /\ (forall j, i0 <= j < r -> history (addressAt j) <> [])
  /\ (r < _maxWalletIndex -> history (addressAt r) = []).

(** The three checks of [send] pass exactly on a valid recipient, an
    integer amount and a fee that is undefined or an integer; the sign of
    the integers is not looked at. *)
Definition send_arguments_ok {lib : Bitcoincashjs} (recipient : string)
    (amount fee : JsValue) : bool :=
  Address_isValid recipient
  && Number_isInteger amount
  && (isUndefined fee || Number_isInteger fee).

(** The satoshi total of a list of inputs: the sum of their [satoshis]. *)
Fixpoint satoshiTotal (inputs : list Input) : Z :=
  match inputs with
  | [] => 0
  | input :: rest => satoshis input + satoshiTotal rest
  end.

(** No input of the list spends the same output as an earlier one, by the
    test of [from]. *)
Fixpoint distinctOutpoints (inputs : list Input) : bool :=
  match inputs with
  | [] => true
  | input :: rest =>
      negb (existsb (sameOutpoint input) rest) && distinctOutpoints rest
  end.

(** bitcoincashjs takes the inputs: [from] returns on them and [sign]
    accepts the transaction that holds them. *)
Definition inputsAccepted {lib : Bitcoincashjs} (inputs : list Input) : bool :=
  match Transaction_from new_Transaction inputs with
  | Returned t =>
      match sign_error (tx_inputs t) with
      | None => true
      | Some _ => false
      end
  | Thrown _ => false
  end.

(** bitcoincashjs takes the address as the destination of an output. *)
Definition addressAccepted {lib : Bitcoincashjs} (a : string) : bool :=
  match Address_error a with
  | None => true
  | Some _ => false
  end.

(** An output the transaction builder takes: a natural number of satoshis
    to an address it accepts. *)
Definition outputAccepted {lib : Bitcoincashjs} (o : Output) : Prop :=
  0 <= output_satoshis o /\ addressAccepted (output_address o) = true.

(** The inputs a transaction holds after [from]. *)
Definition heldInputs {lib : Bitcoincashjs} (inputs : list Input) : list Input :=
  match Transaction_from new_Transaction inputs with
  | Returned t => tx_inputs t
  | Thrown _ => []
  end.

(** The outputs [_buildTransaction] is to produce for a balance. *)
Definition expected_outputs (recipient changeAddress : string)
    (balance amount fee : Z) : list Output :=
  let change := balance - amount - fee in
  if String.eqb recipient changeAddress then
    [ {| output_address := recipient; output_satoshis := amount + change |} ]
  else
    {| output_address := recipient; output_satoshis := amount |}
    :: (if 0 <? change
        then [ {| output_address := changeAddress; output_satoshis := change |} ]
        else []).

(** The fee [_calculateFee] computes for a serialization of [hexLength]
    hexadecimal digits: [Math.ceil(hexLength / 2 * 1.1)]. *)
Definition feeOfHexLength (hexLength : Z) : Z :=
  Number.ceil
    (Number.mul (Number.div (Number.of_Z hexLength) (Number.of_Z 2)) _satoshisPerByte).

(** The rate 11/10 applied to a number of bytes in exact arithmetic and
    rounded up. *)
Definition exactFee (bytes : Z) : Z := - ((- (11 * bytes)) / 10).

(** How the binary64 fee of [bytes] bytes compares with [exactFee]: equal
    off the multiples of 10, equal or one more on them. *)
Definition feeNearExact (bytes : Z) : bool :=
  let fee := feeOfHexLength (2 * bytes) in
  if bytes mod 10 =? 0
  then (fee =? exactFee bytes) || (fee =? exactFee bytes + 1)
  else fee =? exactFee bytes.

(** [f] holds on the [count] integers from [from] on. *)
Fixpoint holdsFrom (f : Z -> bool) (from : Z) (count : nat) : bool :=
  match count with
  | O => true
  | S count' => f from && holdsFrom f (from + 1) count'
  end.

(** ** The scenarios of test/wallet.js

    A stand-in for bitcoincashjs (keys are their derivation index; the
    serialization has the size of a pay-to-public-key-hash transaction,
    10 bytes, 148 per input, 34 per output, and shows the outputs spent,
    the amounts and the destinations; addresses are accepted by their
    prefix, unspent outputs unless their amount is negative) and the stubs
    of the tests. *)
Module Fixture.

Definition getTestAddress (index : Z) : string :=
  ("bitcoincash:" ++ DecimalString.NilZero.string_of_int (Z.to_int index))%string.

Fixpoint hex_zeros (bytes : nat) : string :=
  match bytes with
  | O => ""
  | S n => ("00" ++ hex_zeros n)%string
  end.

Fixpoint zeros (digits : nat) : string :=
  match digits with
  | O => ""
  | S n => String "0" (zeros n)
  end.

(** A natural number in decimal digits, filled with zeros on the left. *)
Definition digitsOf (width : nat) (z : Z) : string :=
  let digits := DecimalString.NilZero.string_of_int (Z.to_int z) in
  (zeros (width - String.length digits) ++ digits)%string.

Definition hexDigit (n : N) : ascii :=
  match String.get (N.to_nat n) "0123456789abcdef" with
  | Some c => c
  | None => "0"%char
  end.

Fixpoint hex_of_string (s : string) : string :=
  match s with
  | EmptyString => EmptyString
  | String c rest =>
      let n := N_of_ascii c in
      String (hexDigit (n / 16)) (String (hexDigit (n mod 16)) (hex_of_string rest))
  end.

(** 148 bytes: the transaction id, the output index, and room for the
    unlocking script. *)
Definition serializedInput (input : Input) : string :=
  (txId input ++ digitsOf 8 (outputIndex input) ++ hex_zeros 112)%string.

(** 34 bytes: the amount, and the address in a field of 26 bytes. *)
Definition serializedOutput (output : Output) : string :=
  let destination := hex_of_string (output_address output) in
  (digitsOf 16 (output_satoshis output)
   ++ destination ++ zeros (52 - String.length destination))%string.

Definition serialized {Key : Type} (t : Transaction Key) : string :=
  (hex_zeros 10
   ++ String.concat "" (map serializedInput (tx_inputs t))
   ++ String.concat "" (map serializedOutput (tx_outputs t)))%string.

Definition lib : Bitcoincashjs := {|
  PublicKey := Z;
  PrivateKey := Z;
  hdPublicKey_derive := fun index => index;
  hdPrivateKey_derive := fun index => index;
  PublicKey_toAddress := getTestAddress;
  Address_isValid := String.prefix "bitcoincash:";
  Transaction_toString := serialized;
  Address_error := fun a =>
    if String.prefix "bitcoincash:" a then None else Some "Error";
  UnspentOutput_error := fun input =>
    if satoshis input <? 0 then Some "bitcore.ErrorInvalidArgument" else None;
  sign_error := fun _ => None
|}.

Definition FIRST_ADDRESS : string := getTestAddress 0.
Definition SECOND_ADDRESS : string := getTestAddress 1.
Definition THIRD_ADDRESS : string := getTestAddress 2.
Definition FOURTH_ADDRESS : string := getTestAddress 3.

Definition CLEAN_ADDRESS_DATA : AddressData := {| transactions := [] |}.
Definition DIRTY_ADDRESS_DATA : AddressData := {| transactions := repeat "tx" 42 |}.

Definition UTXO_SET : list Utxo := [
  {| txid := "0626662764ca19c014c9049a92b8401a9d2fbceed23e7bfea66091a1f0a71902";
     vout := 2;
     utxo_address := FIRST_ADDRESS;
     scriptPubKey := "76a914";
     utxo_satoshis := 1000 |};
  {| txid := "1cc07b8f9cf9feb160c0e3c46c3912370de0e6d5c20f446db3360c9c2b93c0c8";
     vout := 5;
     utxo_address := FIRST_ADDRESS;
     scriptPubKey := "76a914";
     utxo_satoshis := 2000 |} ].

Definition TRANSACTION_INPUTS : list Input := [
  {| txId := "0626662764ca19c014c9049a92b8401a9d2fbceed23e7bfea66091a1f0a71902";
     outputIndex := 2;
     address := FIRST_ADDRESS;
     script := "76a914";
     satoshis := 1000 |};
  {| txId := "1cc07b8f9cf9feb160c0e3c46c3912370de0e6d5c20f446db3360c9c2b93c0c8";
     outputIndex := 5;
     address := FIRST_ADDRESS;
     script := "76a914";
     satoshis := 2000 |} ].

Definition unavailable {A : Type} : Outcome A :=
  Thrown (TopayError "Communication error" "Service unavailable.").

(** No address has a history. *)
Definition emptyClient : TopayRestClient.t := {|
  TopayRestClient.getAddress := fun _ _ => Returned CLEAN_ADDRESS_DATA;
  TopayRestClient.getBalance := fun _ _ => unavailable;
  TopayRestClient.getUtxoSet := fun _ _ => unavailable;
  TopayRestClient.sendTransaction := fun _ _ => unavailable
|}.

(** The history in which the first [used] addresses are dirty. *)
Definition dirtyHistory (used : Z) (a : string) : list string :=
  if existsb (fun i => String.eqb a (getTestAddress (Z.of_nat i))) (seq 0 (Z.to_nat used))
  then transactions DIRTY_ADDRESS_DATA else transactions CLEAN_ADDRESS_DATA.

(** The first [used] addresses have a history; the last of them holds
    [UTXO_SET] and [balance] satoshis. *)
Definition dirtyClient (used : Z) (balance : Z) : TopayRestClient.t := {|
  TopayRestClient.getAddress := fun _ a =>
    Returned {| transactions := dirtyHistory used a |};
  TopayRestClient.getBalance := fun _ a =>
    if String.eqb a (getTestAddress (used - 1)) then Returned balance else unavailable;
  TopayRestClient.getUtxoSet := fun _ a =>
    if String.eqb a (getTestAddress (used - 1)) then Returned UTXO_SET else unavailable;
  TopayRestClient.sendTransaction := fun _ _ => Returned "some transaction id"
|}.

(** How many times [a] was asked for in [log]. *)
Definition timesAsked (log : list Request) (a : string) : nat :=
  List.length (filter (fun r => match r with
                                | GetAddress a' => String.eqb a a'
                                | _ => false
                                end) log).

(** The stub of '_updateWalletIndex: should keep wallet index at the number
    of used addresses': the first two addresses are clean when first asked
    and dirty afterwards. *)
Definition changingClient : TopayRestClient.t := {|
  TopayRestClient.getAddress := fun log a =>
    if String.eqb a FIRST_ADDRESS || String.eqb a SECOND_ADDRESS then
      Returned (if (timesAsked log a =? 0)%nat then CLEAN_ADDRESS_DATA
                else DIRTY_ADDRESS_DATA)
    else if String.eqb a THIRD_ADDRESS then Returned DIRTY_ADDRESS_DATA
    else Returned CLEAN_ADDRESS_DATA;
  TopayRestClient.getBalance := fun _ _ => unavailable;
  TopayRestClient.getUtxoSet := fun _ _ => unavailable;
  TopayRestClient.sendTransaction := fun _ _ => unavailable
|}.

(** [getInitializedWallet]: a new wallet after [initialize]. *)
Definition getInitializedWallet (restClient : TopayRestClient.t) : State :=
  snd (initialize (lib := lib) restClient new_TopayWallet).

End Fixture.

(** ** Further vocabulary of the statements *)

(** The [count] integers from [from] on, in increasing order. *)
Fixpoint Zrange (from : Z) (count : nat) : list Z :=
  match count with
  | O => []
  | S count' => from :: Zrange (from + 1) count'
  end.

(** The history requests for the [count] addresses from index [from] on. *)
Definition scanRequests {lib : Bitcoincashjs} (from : Z) (count : nat) : list Request :=
  map (fun index => GetAddress (addressAt index)) (Zrange from count).

(** The last request of a scan that stops below the bound, and the answer
    it got. *)
Definition stoppedOn {lib : Bitcoincashjs} (restClient : TopayRestClient.t)
    (o : Outcome unit) (st' : State) : Prop :=
  exists before,
    requests st' = before ++ [GetAddress (addressAt (_walletIndex st'))]
    /\ match o with
       | Returned _ =>
           exists data,
             TopayRestClient.getAddress restClient before
               (addressAt (_walletIndex st')) = Returned data
             /\ transactions data = []
       | Thrown e =>
           TopayRestClient.getAddress restClient before
             (addressAt (_walletIndex st')) = Thrown e
       end.

(** The fee [send] goes on with (wallet.js, 84-86): the estimate when the
    argument is [undefined], the argument otherwise. *)
Definition send_fee {lib : Bitcoincashjs} (fee : JsValue) (inputs : list Input)
    (recipient : string) (amount : Z) : M Z :=
  if isUndefined fee then _calculateFee inputs recipient amount
  else ret (JsValue_toInteger fee).

(** What [send] and [widthraw] share once the arguments are checked: the
    scan, the collection of inputs, a fee and an amount computed from them,
    the build and the broadcast. *)
Definition spend {lib : Bitcoincashjs} (restClient : TopayRestClient.t)
    (recipient : string) (amountAndFee : list Input -> M (Z * Z)) : M string :=
  _updateWalletIndex restClient ;;;
  inputs <- _getAvailableInputs restClient ;;
  af <- amountAndFee inputs ;;
  transaction <- _buildTransaction inputs recipient (fst af) (snd af) ;;
  transactionId <- await (TopayRestClient.sendTransaction restClient) SendTransaction
                     (Transaction_toString transaction) ;;
  ret transactionId.

(** The amount and fee of [send]. *)
Definition send_amountAndFee {lib : Bitcoincashjs} (recipient : string)
    (amount fee : JsValue) (inputs : list Input) : M (Z * Z) :=
  fee' <- send_fee fee inputs recipient (JsValue_toInteger amount) ;;
  ret (JsValue_toInteger amount, fee').

(** The amount and fee of [widthraw]. *)
Definition widthraw_amountAndFee {lib : Bitcoincashjs} (recipient : string)
    (inputs : list Input) : M (Z * Z) :=
  let balance := inputs_balance inputs in
  fee <- _calculateFee inputs recipient balance ;;
  ret (balance - fee, fee).

(** A computation that leaves the state as it found it. *)
Definition stateless {A : Type} (m : M A) : Prop :=
  forall st, snd (m st) = st.

(** The requests a spending operation may add after those of the scan:
    none, the UTXO query, or the UTXO query and then one broadcast, whose
    answer is then the outcome. *)
Definition spendTail (restClient : TopayRestClient.t) (before : list Request)
    (tail : list Request) (o : Outcome string) : Prop :=
  tail = []
  \/ (exists a, tail = [GetUtxoSet a])
  \/ (exists a rawtx,
        tail = [GetUtxoSet a; SendTransaction rawtx]
        /\ o = TopayRestClient.sendTransaction restClient
                 (before ++ [GetUtxoSet a]) rawtx).


(** Every exception a client throws satisfies [P]. *)
Definition clientThrows (P : Exception -> Prop) (restClient : TopayRestClient.t) : Prop :=
  (forall log a e, TopayRestClient.getAddress restClient log a = Thrown e -> P e)
  /\ (forall log a e, TopayRestClient.getBalance restClient log a = Thrown e -> P e)
  /\ (forall log a e, TopayRestClient.getUtxoSet restClient log a = Thrown e -> P e)
  /\ (forall log a e, TopayRestClient.sendTransaction restClient log a = Thrown e -> P e).

(** Every exception a computation throws satisfies [P]. *)
Definition throwsOnly {A : Type} (P : Exception -> Prop) (m : M A) : Prop :=
  forall st e st', m st = (Thrown e, st') -> P e.

(** A failed argument check of the wallet. *)
Definition isArgumentError (e : Exception) : Prop :=
  exists message, e = IllegalArgumentError message.

(** The error of [_buildTransaction] for a lack of funds. *)
Definition insufficientFunds : Exception :=
  TopayError "Cannot create transaction" "Insufficient funds.".

(** An error thrown by bitcoincashjs. *)
Definition isBitcoreError (e : Exception) : Prop :=
  exists name, e = BitcoreError name.

(** What [send] can throw: an exception of the client, which satisfies
    [P], a failed argument check, the error for a lack of funds and the
    errors of the transaction builder. *)
Definition spendingError (P : Exception -> Prop) (e : Exception) : Prop :=
  P e \/ isArgumentError e \/ e = insufficientFunds \/ isBitcoreError e.

(** What [widthraw] can throw: as [send], less the error for a lack of
    funds. *)
Definition withdrawalError (P : Exception -> Prop) (e : Exception) : Prop :=
  P e \/ isArgumentError e \/ isBitcoreError e.

(** ** The REST client (src/rest-client.js)

    axios is outside the repository: a request settles to the data of the
    response, or is rejected with an error that carries the response of the
    server or none.  The data of a response is typed by the route asked
    for, as the Insight API answers it. *)
Module RestClientJs.

(** The data of an error response, by what [_unwrap] asks of it.  axios
    hands over the body as text, or parsed when it is JSON: an array,
    whose [indexOf] looks for an element equal to its argument and whose
    conversion to a string is [text]; or a value that has no method
    [indexOf] (an object, a number, a boolean, [null]). *)
Inductive ResponseData : Type :=
| DataString (text : string)
| DataArray (hasCodeItem : bool) (text : string)
| DataOther.

Inductive AxiosError : Type :=
| ErrorResponse (status : Z) (statusText : string) (data : ResponseData)
| NoResponse.

Inductive Settled (A : Type) : Type :=
| Fulfilled (data : A)
| Rejected (error : AxiosError).
Arguments Fulfilled {A} data.
Arguments Rejected {A} error.

(** The data of [GET /addr/<address>], by the fields the repository reads. *)
Record AddressInfo : Type := {
  info_transactions : list string;
  balanceSat : Z;
  unconfirmedBalanceSat : Z
}.

(** [axios.get(url)] on the two routes and [axios.post(url, { rawtx })],
    whose data is read at [txid].  The answers may change with the requests
    made before. *)
Record Axios : Type := {
  get_addr : list Request -> string -> Settled AddressInfo;
  get_utxo : list Request -> string -> Settled (list Utxo);
  post_send : list Request -> string -> string -> Settled string
}.

(** [baseUrl.replace(/\/$/, '')]: a slash that ends the string is removed. *)
Fixpoint stripTrailingSlash (s : string) : string :=
  match s with
  | EmptyString => EmptyString
  | String c rest =>
      match rest with
      | EmptyString => if Ascii.eqb c "/" then EmptyString else s
      | String _ _ => String c (stripTrailingSlash rest)
      end
  end.

(** The last character of a string is a slash. *)
Fixpoint endsWithSlash (s : string) : bool :=
  match s with
  | EmptyString => false
  | String c rest =>
      match rest with
      | EmptyString => Ascii.eqb c "/"
      | String _ _ => endsWithSlash rest
      end
  end.

(** The object the constructor builds (rest-client.js, 19-22). *)
Record t : Type := {
  baseUrl : string
}.

Definition new_TopayRestClient (baseUrl : string) : t :=
  {| baseUrl := stripTrailingSlash baseUrl |}.

(** [`${status}`] *)
Definition status_toString (status : Z) : string :=
  DecimalString.NilZero.string_of_int (Z.to_int status).

(** [text.indexOf('Code:') !== -1] on a string *)
Definition hasCode (text : string) : bool :=
  match String.index 0 "Code:" text with
  | Some _ => true
  | None => false
  end.

(** [data.indexOf('Code:') !== -1 ? data : statusText], as the string the
    template of the detail makes of it; [None] where [data.indexOf] is not a
    function. *)
Definition messageOf (data : ResponseData) (statusText : string) : option string :=
  match data with
  | DataString text => Some (if hasCode text then text else statusText)
  | DataArray hasCodeItem text => Some (if hasCodeItem then text else statusText)
  | DataOther => None
  end.

(** rest-client.js, 113-131 *)
Definition _unwrap {A : Type} (request : Settled A) : Outcome A :=
  match request with
  | Fulfilled data => Returned data
  | Rejected error =>
      let title := "Communication error" in
      match error with
      | ErrorResponse status statusText data =>
          match messageOf data statusText with
          | Some message =>
              let detail :=
                (("Request failed with status " ++ status_toString status ++ ".")
                 ++ " " ++ ("Message: '" ++ message ++ "'."))%string in
              Thrown (TopayError title detail)
          | None => Thrown TypeError
          end
      | NoResponse => Thrown (TopayError title "Service unavailable.")
      end
  end.

Section Methods.
Variable this : t.
Variable axios : Axios.

(** rest-client.js, 86-89: the request goes to [`${this.baseUrl}${route}`]. *)
Definition _get {A : Type} (get : string -> Settled A) (route : string) : Outcome A :=
  _unwrap (get (baseUrl this ++ route)%string).

(** rest-client.js, 99-102 *)
Definition _post {A : Type} (post : string -> string -> Settled A)
    (route : string) (data : string) : Outcome A :=
  _unwrap (post (baseUrl this ++ route)%string data).

(** rest-client.js, 31-34 *)
Definition getAddress (log : list Request) (address : string) : Outcome AddressInfo :=
  _get (get_addr axios log) ("/addr/" ++ address)%string.

(** rest-client.js, 43-49 *)
Definition getBalance (log : list Request) (address : string) : Outcome Z :=
  match getAddress log address with
  | Returned info => Returned (balanceSat info + unconfirmedBalanceSat info)
  | Thrown e => Thrown e
  end.

(** rest-client.js, 58-61 *)
Definition getUtxoSet (log : list Request) (address : string) : Outcome (list Utxo) :=
  _get (get_utxo axios log) ("/addr/" ++ address ++ "/utxo")%string.

(** rest-client.js, 71-77 *)
Definition sendTransaction (log : list Request) (transaction : string) : Outcome string :=
  _post (post_send axios log) "/tx/send" transaction.

(** The client as the wallet calls it; of the data of an address the wallet
    reads [transactions]. *)
Definition asClient : TopayRestClient.t := {|
  TopayRestClient.getAddress := fun log address =>
    Outcome_map (fun info => {| transactions := info_transactions info |})
      (getAddress log address);
  TopayRestClient.getBalance := getBalance;
  TopayRestClient.getUtxoSet := getUtxoSet;
  TopayRestClient.sendTransaction := sendTransaction
|}.

End Methods.

End RestClientJs.

(** [text] holds 'Code:' somewhere. *)
Definition containsCode (text : string) : Prop :=
  exists before after, text = (before ++ "Code:" ++ after)%string.

(** The detail of the error for a response of the server. *)
Definition requestFailed (status : Z) (message : string) : string :=
  ("Request failed with status " ++ RestClientJs.status_toString status
   ++ ". Message: '" ++ message ++ "'.")%string.

(** What the REST client throws for a rejected request: 'Service
    unavailable.' when there is no response; for a response whose data is
    text, the status and that text when it holds 'Code:', the status and the
    status text when it does not; the same for an array, by whether one of
    its elements is 'Code:'; a [TypeError] for data of any other shape. *)
Inductive thrownFor : RestClientJs.AxiosError -> Exception -> Prop :=
| thrownFor_NoResponse :
    thrownFor RestClientJs.NoResponse
      (TopayError "Communication error" "Service unavailable.")
| thrownFor_code (status : Z) (statusText text : string) :
    containsCode text ->
    thrownFor (RestClientJs.ErrorResponse status statusText (RestClientJs.DataString text))
      (TopayError "Communication error" (requestFailed status text))
| thrownFor_statusText (status : Z) (statusText text : string) :
    ~ containsCode text ->
    thrownFor (RestClientJs.ErrorResponse status statusText (RestClientJs.DataString text))
      (TopayError "Communication error" (requestFailed status statusText))
| thrownFor_array (status : Z) (statusText text : string) (hasCodeItem : bool) :
    thrownFor
      (RestClientJs.ErrorResponse status statusText
         (RestClientJs.DataArray hasCodeItem text))
      (TopayError "Communication error"
         (requestFailed status (if hasCodeItem then text else statusText)))
| thrownFor_other (status : Z) (statusText : string) :
    thrownFor (RestClientJs.ErrorResponse status statusText RestClientJs.DataOther)
      TypeError.

(** How a method of the REST client answers for a settled request: with
    the data read by [read] when it is fulfilled, with the exception for the
    rejection when it is rejected. *)
Definition answersFor {A B : Type} (request : RestClientJs.Settled A)
    (read : A -> B) (outcome : Outcome B) : Prop :=
  match request with
  | RestClientJs.Fulfilled data => outcome = Returned (read data)
  | RestClientJs.Rejected error => exists e, outcome = Thrown e /\ thrownFor error e
  end.

(** A server for the scenarios: the address at index 0 is used and holds
    [Fixture.UTXO_SET], 2900 satoshis confirmed and 100 unconfirmed; every
    other address is unknown to it (status 404); a transaction sent is
    refused with a reason. *)
Module FixtureRest.

Definition API : string := "https://bitcoincash.blockexplorer.com/api".

Definition notFound {A : Type} : RestClientJs.Settled A :=
  RestClientJs.Rejected
    (RestClientJs.ErrorResponse 404 "Not Found" (RestClientJs.DataString "")).

Definition axios : RestClientJs.Axios := {|
  RestClientJs.get_addr := fun _ url =>
    if String.eqb url (API ++ "/addr/" ++ Fixture.FIRST_ADDRESS)%string
    then RestClientJs.Fulfilled
           {| RestClientJs.info_transactions := ["tx"];
              RestClientJs.balanceSat := 2900;
              RestClientJs.unconfirmedBalanceSat := 100 |}
    else if String.eqb url (API ++ "/addr/" ++ Fixture.SECOND_ADDRESS)%string
    then RestClientJs.Fulfilled
           {| RestClientJs.info_transactions := [];
              RestClientJs.balanceSat := 0;
              RestClientJs.unconfirmedBalanceSat := 0 |}
    else notFound;
  RestClientJs.get_utxo := fun _ url =>
    if String.eqb url (API ++ "/addr/" ++ Fixture.FIRST_ADDRESS ++ "/utxo")%string
    then RestClientJs.Fulfilled Fixture.UTXO_SET
    else notFound;
  RestClientJs.post_send := fun _ url _ =>
    if String.eqb url (API ++ "/tx/send")%string
    then RestClientJs.Rejected
           (RestClientJs.ErrorResponse 400 "Bad Request"
              (RestClientJs.DataString "Missing inputs. Code:-25"))
    else notFound
|}.

(** A server that refuses every request with status 500 and a JSON object
    as body. *)
Definition failing : RestClientJs.Axios := {|
  RestClientJs.get_addr := fun _ _ =>
    RestClientJs.Rejected
      (RestClientJs.ErrorResponse 500 "Internal Server Error" RestClientJs.DataOther);
  RestClientJs.get_utxo := fun _ _ =>
    RestClientJs.Rejected
      (RestClientJs.ErrorResponse 500 "Internal Server Error" RestClientJs.DataOther);
  RestClientJs.post_send := fun _ _ _ =>
    RestClientJs.Rejected
      (RestClientJs.ErrorResponse 500 "Internal Server Error" RestClientJs.DataOther)
|}.

(** No server answers. *)
Definition offline : RestClientJs.Axios := {|
  RestClientJs.get_addr := fun _ _ => RestClientJs.Rejected RestClientJs.NoResponse;
  RestClientJs.get_utxo := fun _ _ => RestClientJs.Rejected RestClientJs.NoResponse;
  RestClientJs.post_send := fun _ _ _ => RestClientJs.Rejected RestClientJs.NoResponse
|}.

End FixtureRest.

(** * Properties *)

(** ** The scenarios of the test suite, run on the model *)

Example test_initialize_clean :
  _walletIndex (Fixture.getInitializedWallet Fixture.emptyClient) = 0.
Proof. reflexivity. Qed.

Example test_initialize_dirty :
  _walletIndex (Fixture.getInitializedWallet (Fixture.dirtyClient 1 0)) = 1.
Proof. vm_compute. reflexivity. Qed.

Example test_getBalance_clean :
  fst (getBalance (lib := Fixture.lib) Fixture.emptyClient
         (Fixture.getInitializedWallet Fixture.emptyClient)) = Returned 0.
Proof. vm_compute. reflexivity. Qed.

Example test_getBalance_dirty :
  fst (getBalance (lib := Fixture.lib) (Fixture.dirtyClient 2 42)
         (Fixture.getInitializedWallet (Fixture.dirtyClient 2 42))) = Returned 42.
Proof. vm_compute. reflexivity. Qed.

Example test_getReceiveAddress_dirty :
  fst (getReceiveAddress (lib := Fixture.lib) (Fixture.dirtyClient 3 0)
         (Fixture.getInitializedWallet (Fixture.dirtyClient 3 0)))
  = Returned Fixture.FOURTH_ADDRESS.
Proof. vm_compute. reflexivity. Qed.

Example test_updateWalletIndex_changing :
  let w0 := Fixture.getInitializedWallet Fixture.changingClient in
  let w1 := snd (_updateWalletIndex (lib := Fixture.lib) Fixture.changingClient w0) in
  let w2 := snd (_updateWalletIndex (lib := Fixture.lib) Fixture.changingClient w1) in
  (_walletIndex w0, _walletIndex w1, _walletIndex w2) = (0, 1, 3).
Proof. vm_compute. reflexivity. Qed.

Example test_getAvailableInputs_dirty :
  fst (_getAvailableInputs (lib := Fixture.lib) (Fixture.dirtyClient 2 0)
         (Fixture.getInitializedWallet (Fixture.dirtyClient 2 0)))
  = Returned Fixture.TRANSACTION_INPUTS.
Proof. vm_compute. reflexivity. Qed.

Example test_buildTransaction_change :
  option_map (fun t => map output_satoshis (tx_outputs t))
    (match fst (_buildTransaction (lib := Fixture.lib) Fixture.TRANSACTION_INPUTS
                  Fixture.THIRD_ADDRESS 1000 500
                  (Fixture.getInitializedWallet (Fixture.dirtyClient 1 0))) with
     | Returned t => Some t
     | Thrown _ => None
     end)
  = Some [1000; 1500].
Proof. vm_compute. reflexivity. Qed.

Example test_send_own_address :
  let w := Fixture.getInitializedWallet (Fixture.dirtyClient 1 0) in
  let r := send (lib := Fixture.lib) (Fixture.dirtyClient 1 0)
             Fixture.SECOND_ADDRESS (JsInteger 1500) JsUndefined w in
  let sent :=
    {| tx_inputs := Fixture.TRANSACTION_INPUTS;
       tx_outputs := [ {| output_address := Fixture.SECOND_ADDRESS;
                          output_satoshis := 2625 |} ];
       tx_signedWith := [0] |} in
  fst r = Returned "some transaction id"
  /\ last (requests (snd r)) (GetAddress "")
     = SendTransaction (Fixture.serialized sent)
  /\ String.length (Fixture.serialized sent) = (2 * 340)%nat.
Proof. vm_compute. repeat split; reflexivity. Qed.

(** The errors of the REST client of the scenarios: a refusal with a
    reason, an unknown address, a JSON body, no answer. *)
Example test_restClient_errors :
  let this := RestClientJs.new_TopayRestClient (FixtureRest.API ++ "/") in
  RestClientJs.sendTransaction this FixtureRest.axios [] "00"
  = Thrown (TopayError "Communication error"
              "Request failed with status 400. Message: 'Missing inputs. Code:-25'.")
  /\ RestClientJs.getUtxoSet this FixtureRest.axios [] Fixture.THIRD_ADDRESS
     = Thrown (TopayError "Communication error"
                 "Request failed with status 404. Message: 'Not Found'.")
  /\ RestClientJs.getBalance this FixtureRest.failing [] Fixture.FIRST_ADDRESS
     = Thrown TypeError
  /\ RestClientJs.getAddress this FixtureRest.offline [] Fixture.FIRST_ADDRESS
     = Thrown (TopayError "Communication error" "Service unavailable.").
Proof. vm_compute. repeat split; reflexivity. Qed.

(** A negative amount, a fee above the funds of a payment to the change
    address, and an unspent output given twice, on the wallet of the
    tests. *)
Example test_buildTransaction_library :
  let st := Fixture.getInitializedWallet (Fixture.dirtyClient 1 0) in
  let twice := Fixture.TRANSACTION_INPUTS ++ Fixture.TRANSACTION_INPUTS in
  fst (_buildTransaction (lib := Fixture.lib) Fixture.TRANSACTION_INPUTS
         Fixture.THIRD_ADDRESS (-100) 500 st) = Thrown ErrorInvalidArgument
  /\ fst (_buildTransaction (lib := Fixture.lib) Fixture.TRANSACTION_INPUTS
            Fixture.SECOND_ADDRESS (-600) 3500 st) = Thrown ErrorInvalidArgument
  /\ Outcome_map (fun t => (tx_inputs t, map output_satoshis (tx_outputs t)))
       (fst (_buildTransaction (lib := Fixture.lib) twice
               Fixture.THIRD_ADDRESS 1000 500 st))
     = Returned (Fixture.TRANSACTION_INPUTS, [1000; 4500]).
Proof. vm_compute. repeat split; reflexivity. Qed.

(** ** Computations *)

Section Computations.

Lemma bind_Returned {A B : Type} (m : M A) (k : A -> M B) (st st' : State) (a : A) :
  m st = (Returned a, st') -> bind m k st = k a st'.
Proof. intros H. unfold bind. rewrite H. reflexivity. Qed.

Lemma bind_Thrown {A B : Type} (m : M A) (k : A -> M B) (st st' : State)
    (e : Exception) :
  m st = (Thrown e, st') -> bind m k st = (Thrown e, st').
Proof. intros H. unfold bind. rewrite H. reflexivity. Qed.

Lemma bind_get_walletIndex {B : Type} (k : Z -> M B) (st : State) :
  bind get_walletIndex k st = k (_walletIndex st) st.
Proof. reflexivity. Qed.

Lemma bind_call {A B : Type} (o : Outcome A) (k : A -> M B) (st : State) :
  bind (call o) k st
  = match o with
    | Returned a => k a st
    | Thrown e => (Thrown e, st)
    end.
Proof. unfold bind, call. destruct o; reflexivity. Qed.

End Computations.

(** ** Key derivation *)

Section Derivation.
Context {lib : Bitcoincashjs}.

Lemma _getAddress_eq (index : Z) (st : State) :
  _getAddress index st
  = if index_inRange index then (Returned (addressAt index), st)
    else (Thrown (IllegalArgumentError "index"), st).
Proof.
  unfold _getAddress, _getPublicKey, checkArgument, bind, ret, throw, addressAt.
  destruct (index_inRange index); reflexivity.
Qed.

Lemma _getPrivateKey_eq (index : Z) (st : State) :
  _getPrivateKey index st
  = if index_inRange index then (Returned (hdPrivateKey_derive index), st)
    else (Thrown (IllegalArgumentError "index"), st).
Proof.
  unfold _getPrivateKey, checkArgument, bind, ret, throw.
  destruct (index_inRange index); reflexivity.
Qed.

Lemma index_inRange_true (index : Z) :
  index_inRange index = true <-> 0 <= index <= _maxWalletIndex.
Proof.
  unfold index_inRange. rewrite andb_true_iff, !Z.leb_le. tauto.
Qed.

Lemma index_inRange_false (index : Z) :
  index_inRange index = false <-> index < 0 \/ _maxWalletIndex < index.
Proof.
  unfold index_inRange. rewrite andb_false_iff, !Z.leb_gt. tauto.
Qed.

End Derivation.

(** ** The transaction builder *)

Section Builder.
Context {lib : Bitcoincashjs}.

(** [reduce] from the left adds up the satoshis of the inputs. *)
Lemma inputs_balance_from (inputs : list Input) (start : Z) :
  fold_left (fun total input => total + satoshis input) inputs start
  = start + satoshiTotal inputs.
Proof.
  revert start. induction inputs as [|input rest IH]; intros start; cbn [fold_left satoshiTotal];
    [lia|]. rewrite IH. lia.
Qed.

Lemma inputs_balance_total (inputs : list Input) :
  inputs_balance inputs = satoshiTotal inputs.
Proof. unfold inputs_balance. rewrite inputs_balance_from. lia. Qed.


(** [from] touches the inputs only, and adds some of those it is given. *)
Lemma Transaction_from_frame (inputs : list Input) :
  forall t t' : Transaction PrivateKey,
    Transaction_from t inputs = Returned t' ->
    tx_outputs t' = tx_outputs t
    /\ tx_signedWith t' = tx_signedWith t
    /\ exists added, tx_inputs t' = tx_inputs t ++ added /\ incl added inputs.
Proof.
  induction inputs as [|utxo rest IH]; intros t t' Hfrom; cbn [Transaction_from] in Hfrom.
  - injection Hfrom as <-. split; [reflexivity|]. split; [reflexivity|].
    exists []. rewrite app_nil_r. split; [reflexivity|]. intros x [].
  - unfold Transaction_from1 in Hfrom.
    destruct (existsb (fun input => sameOutpoint input utxo) (tx_inputs t)).
    + destruct (IH t t' Hfrom) as [Ho [Hs [added [Hi Hincl]]]].
      split; [exact Ho|]. split; [exact Hs|]. exists added. split; [exact Hi|].
      intros x Hx. right. apply Hincl. exact Hx.
    + destruct (UnspentOutput_error utxo); [discriminate|].
      destruct (IH _ t' Hfrom) as [Ho [Hs [added [Hi Hincl]]]].
      cbn [tx_inputs tx_outputs tx_signedWith] in Ho, Hs, Hi.
      split; [exact Ho|]. split; [exact Hs|]. exists (utxo :: added).
      split; [rewrite Hi, <- app_assoc; reflexivity|].
      intros x [<-|Hx]; [left; reflexivity|right; apply Hincl; exact Hx].
Qed.

(** When no two of the inputs spend the same output, [from] adds them all,
    in their order. *)
Lemma Transaction_from_distinct (inputs : list Input) :
  forall t t' : Transaction PrivateKey,
    Transaction_from t inputs = Returned t' ->
    distinctOutpoints inputs = true ->
    (forall held, In held (tx_inputs t) -> existsb (sameOutpoint held) inputs = false) ->
    tx_inputs t' = tx_inputs t ++ inputs.
Proof.
  induction inputs as [|utxo rest IH]; intros t t' Hfrom Hdistinct Hfresh;
    cbn [Transaction_from] in Hfrom.
  - injection Hfrom as <-. rewrite app_nil_r. reflexivity.
  - cbn [distinctOutpoints] in Hdistinct. apply andb_true_iff in Hdistinct.
    destruct Hdistinct as [Hutxo Hrest]. apply negb_true_iff in Hutxo.
    unfold Transaction_from1 in Hfrom.
    assert (Hnew : existsb (fun input => sameOutpoint input utxo) (tx_inputs t) = false).
    { apply not_true_is_false. intros Hex. apply existsb_exists in Hex.
      destruct Hex as [held [Hin Hsame]].
      pose proof (Hfresh held Hin) as Hnone. cbn [existsb] in Hnone.
      rewrite Hsame in Hnone. discriminate. }
    rewrite Hnew in Hfrom.
    destruct (UnspentOutput_error utxo); [discriminate|].
    rewrite (IH _ t' Hfrom Hrest); cbn [tx_inputs].
    + rewrite <- app_assoc. reflexivity.
    + intros held Hin. apply in_app_or in Hin. destruct Hin as [Hin|[<-|[]]].
      * pose proof (Hfresh held Hin) as Hnone. cbn [existsb] in Hnone.
        apply orb_false_iff in Hnone. apply Hnone.
      * exact Hutxo.
Qed.

Lemma heldInputs_distinct (inputs : list Input) :
  inputsAccepted inputs = true ->
  distinctOutpoints inputs = true ->
  heldInputs inputs = inputs.
Proof.
  unfold inputsAccepted, heldInputs. intros Haccepted Hdistinct.
  destruct (Transaction_from new_Transaction inputs) as [t|e] eqn:Hfrom; [|discriminate].
  rewrite (Transaction_from_distinct inputs _ t Hfrom Hdistinct); [reflexivity|].
  intros held [].
Qed.





(** The three ways [_buildTransaction] goes: not enough funds; an index
    the key derivation refuses; or the calls of the transaction builder,
    whose outcome is the outcome. *)
Lemma _buildTransaction_eq (inputs : list Input) (recipient : string)
    (amount fee : Z) (st : State) :
  _buildTransaction inputs recipient amount fee st
  = if inputs_balance inputs <? amount + fee then
      (Thrown (TopayError "Cannot create transaction" "Insufficient funds."), st)
    else if index_inRange (_walletIndex st) && index_inRange (_walletIndex st - 1) then
      let change := inputs_balance inputs - amount - fee in
      let changeAddress := addressAt (_walletIndex st) in
      (match Transaction_from new_Transaction inputs with
       | Thrown e => Thrown e
       | Returned t0 =>
           match (if negb (String.eqb recipient changeAddress) then
                    match Transaction_to t0 recipient amount with
                    | Thrown e => Thrown e
                    | Returned t1 =>
                        if 0 <? change then Transaction_to t1 changeAddress change
                        else Returned t1
                    end
                  else Transaction_to t0 recipient (amount + change)) with
           | Thrown e => Thrown e
           | Returned t2 => Transaction_sign t2 (hdPrivateKey_derive (_walletIndex st - 1))
           end
       end, st)
    else (Thrown (IllegalArgumentError "index"), st).
Proof.
  unfold _buildTransaction.
  destruct (inputs_balance inputs <? amount + fee); [reflexivity|].
  rewrite bind_get_walletIndex.
  unfold bind at 1. rewrite _getAddress_eq.
  destruct (index_inRange (_walletIndex st)); cbn [andb]; [|reflexivity].
  unfold bind at 1. rewrite _getPrivateKey_eq.
  destruct (index_inRange (_walletIndex st - 1)); [|reflexivity].
  cbv zeta. rewrite bind_call.
  destruct (Transaction_from new_Transaction inputs) as [t0|e]; [|reflexivity].
  unfold bind at 1.
  destruct (negb (String.eqb recipient (addressAt (_walletIndex st)))).
  - rewrite bind_call.
    destruct (Transaction_to t0 recipient amount) as [t1|e]; [|reflexivity].
    destruct (0 <? inputs_balance inputs - amount - fee).
    + unfold call at 1.
      destruct (Transaction_to t1 (addressAt (_walletIndex st))
                  (inputs_balance inputs - amount - fee)) as [t2|e]; [|reflexivity].
      rewrite bind_call. destruct (Transaction_sign t2 _); reflexivity.
    + unfold ret at 1. rewrite bind_call. destruct (Transaction_sign t1 _); reflexivity.
  - unfold call at 1.
    destruct (Transaction_to t0 recipient
                (amount + (inputs_balance inputs - amount - fee))) as [t2|e]; [|reflexivity].
    rewrite bind_call. destruct (Transaction_sign t2 _); reflexivity.
Qed.

Lemma _buildTransaction_state (inputs : list Input) (recipient : string)
    (amount fee : Z) (st : State) :
  snd (_buildTransaction inputs recipient amount fee st) = st.
Proof.
  rewrite _buildTransaction_eq.
  destruct (inputs_balance inputs <? amount + fee); [reflexivity|].
  destruct (index_inRange (_walletIndex st) && index_inRange (_walletIndex st - 1));
    reflexivity.
Qed.

Lemma spending_indices_inRange (st : State) :
  1 <= _walletIndex st <= _maxWalletIndex ->
  index_inRange (_walletIndex st) && index_inRange (_walletIndex st - 1) = true.
Proof.
  intros H. apply andb_true_iff. split; apply index_inRange_true; lia.
Qed.

(** On a wallet without history (index 0) the builder has no key to sign
    with: enough funds or not, no transaction comes out. *)
Lemma _buildTransaction_no_history (inputs : list Input) (recipient : string)
    (amount fee : Z) (st : State) :
  _walletIndex st = 0 ->
  amount + fee <= inputs_balance inputs ->
  _buildTransaction inputs recipient amount fee st
  = (Thrown (IllegalArgumentError "index"), st).
Proof.
  intros Hidx Hfunds. rewrite _buildTransaction_eq.
  destruct (Z.ltb_spec (inputs_balance inputs) (amount + fee)); [lia|].
  rewrite Hidx. reflexivity.
Qed.

(** What [to] returns. *)
Lemma Transaction_to_Returned (t t' : Transaction PrivateKey) (a : string) (amount : Z) :
  Transaction_to t a amount = Returned t' ->
  0 <= amount
  /\ addressAccepted a = true
  /\ t' = {| tx_inputs := tx_inputs t;
             tx_outputs := tx_outputs t
                           ++ [ {| output_address := a; output_satoshis := amount |} ];
             tx_signedWith := tx_signedWith t |}.
Proof.
  unfold Transaction_to, addressAccepted.
  destruct (Z.ltb_spec amount 0) as [Hneg|Hpos]; [discriminate|].
  destruct (Address_error a); [discriminate|].
  intros Hto. injection Hto as <-. split; [lia|]. split; reflexivity.
Qed.

Lemma Transaction_to_accepted (t : Transaction PrivateKey) (a : string) (amount : Z) :
  0 <= amount ->
  addressAccepted a = true ->
  Transaction_to t a amount
  = Returned {| tx_inputs := tx_inputs t;
                tx_outputs := tx_outputs t
                              ++ [ {| output_address := a; output_satoshis := amount |} ];
                tx_signedWith := tx_signedWith t |}.
Proof.
  unfold Transaction_to, addressAccepted. intros Hamount Haddress.
  destruct (Z.ltb_spec amount 0); [lia|].
  destruct (Address_error a); [discriminate|reflexivity].
Qed.

Lemma Transaction_to_negative (t : Transaction PrivateKey) (a : string) (amount : Z) :
  amount < 0 -> Transaction_to t a amount = Thrown ErrorInvalidArgument.
Proof.
  unfold Transaction_to. intros Hamount.
  destruct (Z.ltb_spec amount 0); [reflexivity|lia].
Qed.


Lemma Transaction_sign_Returned (t t' : Transaction PrivateKey) (key : PrivateKey) :
  Transaction_sign t key = Returned t' ->
  sign_error (tx_inputs t) = None
  /\ t' = {| tx_inputs := tx_inputs t;
             tx_outputs := tx_outputs t;
             tx_signedWith := tx_signedWith t ++ [key] |}.
Proof.
  unfold Transaction_sign. destruct (sign_error (tx_inputs t)); [discriminate|].
  intros Hsign. injection Hsign as <-. split; reflexivity.
Qed.

(** What a returned transaction is, and what its return tells. *)
Lemma _buildTransaction_Returned (inputs : list Input) (recipient : string)
    (amount fee : Z) (st st' : State) (transaction : Transaction PrivateKey) :
  _buildTransaction inputs recipient amount fee st = (Returned transaction, st') ->
  st' = st
  /\ amount + fee <= inputs_balance inputs
  /\ 1 <= _walletIndex st <= _maxWalletIndex
  /\ inputsAccepted inputs = true
  /\ Forall outputAccepted (tx_outputs transaction)
  /\ transaction
     = {| tx_inputs := heldInputs inputs;
          tx_outputs := expected_outputs recipient (addressAt (_walletIndex st))
                          (inputs_balance inputs) amount fee;
          tx_signedWith := [hdPrivateKey_derive (_walletIndex st - 1)] |}.
Proof.
  rewrite _buildTransaction_eq.
  destruct (Z.ltb_spec (inputs_balance inputs) (amount + fee)) as [Hlt|Hge];
    [discriminate|].
  destruct (index_inRange (_walletIndex st) && index_inRange (_walletIndex st - 1))
    eqn:Hin; [|discriminate].
  apply andb_true_iff in Hin. destruct Hin as [H1 H2].
  apply index_inRange_true in H1, H2.
  cbv zeta. unfold inputsAccepted, heldInputs, expected_outputs.
  destruct (Transaction_from new_Transaction inputs) as [t0|e] eqn:Hfrom;
    [|discriminate].
  destruct (Transaction_from_frame inputs _ t0 Hfrom) as [Houts [Hkeys _]].
  cbn [new_Transaction tx_outputs tx_signedWith] in Houts, Hkeys.
  set (change := inputs_balance inputs - amount - fee).
  set (changeAddress := addressAt (_walletIndex st)).
  intros Hrun.
  assert (Hend : forall t2 outs,
            Transaction_sign t2 (hdPrivateKey_derive (_walletIndex st - 1))
            = Returned transaction ->
            tx_inputs t2 = tx_inputs t0 -> tx_outputs t2 = outs -> tx_signedWith t2 = [] ->
            Forall outputAccepted outs ->
            st = st
            /\ amount + fee <= inputs_balance inputs
            /\ 1 <= _walletIndex st <= _maxWalletIndex
            /\ match sign_error (tx_inputs t0) with
               | Some _ => false
               | None => true
               end = true
            /\ Forall outputAccepted (tx_outputs transaction)
            /\ transaction
               = {| tx_inputs := tx_inputs t0;
                    tx_outputs := outs;
                    tx_signedWith := [hdPrivateKey_derive (_walletIndex st - 1)] |}).
  { intros t2 outs Hsign Hi Ho Hk Hall.
    apply Transaction_sign_Returned in Hsign. destruct Hsign as [Hok ->].
    rewrite Hi in Hok. rewrite Hok, Hi, Ho, Hk. cbn [tx_outputs app].
    repeat split; (reflexivity || lia || assumption). }
  destruct (String.eqb recipient changeAddress); cbn [negb] in Hrun.
  - destruct (Transaction_to t0 recipient (amount + change)) as [t2|e] eqn:Hto;
      [|discriminate].
    injection Hrun as Hsign <-.
    apply Transaction_to_Returned in Hto. destruct Hto as [Hamount [Haddress ->]].
    apply (Hend _ _ Hsign); cbn [tx_inputs tx_outputs tx_signedWith];
      [reflexivity|rewrite Houts; reflexivity|exact Hkeys|].
    apply Forall_cons; [split; assumption|apply Forall_nil].
  - destruct (Transaction_to t0 recipient amount) as [t1|e] eqn:Hto; [|discriminate].
    apply Transaction_to_Returned in Hto. destruct Hto as [Hamount [Haddress ->]].
    destruct (0 <? change).
    + destruct (Transaction_to _ changeAddress change) as [t2|e] eqn:Hto'; [|discriminate].
      injection Hrun as Hsign <-.
      apply Transaction_to_Returned in Hto'. destruct Hto' as [Hchange [Haddress' ->]].
      apply (Hend _ _ Hsign); cbn [tx_inputs tx_outputs tx_signedWith];
        [reflexivity|rewrite Houts; reflexivity|exact Hkeys|].
      apply Forall_cons; [split; assumption|].
      apply Forall_cons; [split; assumption|apply Forall_nil].
    + injection Hrun as Hsign <-.
      apply (Hend _ _ Hsign); cbn [tx_inputs tx_outputs tx_signedWith];
        [reflexivity|rewrite Houts; reflexivity|exact Hkeys|].
      apply Forall_cons; [split; assumption|apply Forall_nil].
Qed.

(** The builder returns the transaction once the funds suffice, the wallet
    has a used address within the bound and bitcoincashjs takes the inputs
    and each of the outputs. *)
Lemma _buildTransaction_returns (inputs : list Input) (recipient : string)
    (amount fee : Z) (st : State) :
  amount + fee <= inputs_balance inputs ->
  1 <= _walletIndex st <= _maxWalletIndex ->
  inputsAccepted inputs = true ->
  Forall outputAccepted
    (expected_outputs recipient (addressAt (_walletIndex st))
       (inputs_balance inputs) amount fee) ->
  _buildTransaction inputs recipient amount fee st
  = (Returned {| tx_inputs := heldInputs inputs;
                 tx_outputs := expected_outputs recipient (addressAt (_walletIndex st))
                                 (inputs_balance inputs) amount fee;
                 tx_signedWith := [hdPrivateKey_derive (_walletIndex st - 1)] |}, st).
Proof.
  intros Hfunds Hidx Haccepted Houtputs. rewrite _buildTransaction_eq.
  destruct (Z.ltb_spec (inputs_balance inputs) (amount + fee)); [lia|].
  rewrite (spending_indices_inRange st Hidx). cbv zeta.
  unfold inputsAccepted in Haccepted. unfold heldInputs.
  destruct (Transaction_from new_Transaction inputs) as [t0|e] eqn:Hfrom;
    [|discriminate].
  destruct (Transaction_from_frame inputs _ t0 Hfrom) as [Houts [Hkeys _]].
  cbn [new_Transaction tx_outputs tx_signedWith] in Houts, Hkeys.
  destruct (sign_error (tx_inputs t0)) eqn:Hsign; [discriminate|].
  unfold expected_outputs in *.
  destruct (String.eqb recipient (addressAt (_walletIndex st))); cbn [negb].
  - inversion Houtputs as [|o l [Hamount Haddress] _]; subst.
    cbn [output_satoshis output_address] in Hamount, Haddress.
    rewrite (Transaction_to_accepted _ _ _ Hamount Haddress).
    unfold Transaction_sign. cbn [tx_inputs tx_outputs tx_signedWith].
    rewrite Hsign, Houts, Hkeys. reflexivity.
  - inversion Houtputs as [|o l [Hamount Haddress] Hrest]; subst.
    cbn [output_satoshis output_address] in Hamount, Haddress.
    rewrite (Transaction_to_accepted _ _ _ Hamount Haddress).
    destruct (0 <? inputs_balance inputs - amount - fee).
    + inversion Hrest as [|o' l' [Hchange Haddress'] _]; subst.
      cbn [output_satoshis output_address] in Hchange, Haddress'.
      rewrite (Transaction_to_accepted _ _ _ Hchange Haddress').
      unfold Transaction_sign. cbn [tx_inputs tx_outputs tx_signedWith].
      rewrite Hsign, Houts, Hkeys. reflexivity.
    + unfold Transaction_sign. cbn [tx_inputs tx_outputs tx_signedWith].
      rewrite Hsign, Houts, Hkeys. reflexivity.
Qed.


(** The builder returns a transaction exactly when the funds suffice, the
    wallet has a used address within the bound, and bitcoincashjs takes the
    inputs and the outputs. *)
Lemma _buildTransaction_returns_iff (inputs : list Input) (recipient : string)
    (amount fee : Z) (st : State) :
  (exists transaction,
     _buildTransaction inputs recipient amount fee st = (Returned transaction, st))
  <-> amount + fee <= inputs_balance inputs
      /\ 1 <= _walletIndex st <= _maxWalletIndex
      /\ inputsAccepted inputs = true
      /\ Forall outputAccepted
           (expected_outputs recipient (addressAt (_walletIndex st))
              (inputs_balance inputs) amount fee).
Proof.
  split.
  - intros [transaction Hrun]. apply _buildTransaction_Returned in Hrun.
    destruct Hrun as [_ [Hfunds [Hidx [Haccepted [Houts ->]]]]].
    cbn [tx_outputs] in Houts. tauto.
  - intros [Hfunds [Hidx [Haccepted Houts]]]. eexists.
    apply _buildTransaction_returns; assumption.
Qed.

(** What the builder throws: the error for a lack of funds, exactly when
    the funds are short; otherwise the error of the check of the derivation
    index, or an error of bitcoincashjs. *)
Lemma _buildTransaction_Thrown (inputs : list Input) (recipient : string)
    (amount fee : Z) (st st' : State) (e : Exception) :
  _buildTransaction inputs recipient amount fee st = (Thrown e, st') ->
  (e = insufficientFunds /\ inputs_balance inputs < amount + fee)
  \/ (amount + fee <= inputs_balance inputs
      /\ (e = IllegalArgumentError "index" \/ isBitcoreError e)).
Proof.
  rewrite _buildTransaction_eq.
  destruct (Z.ltb_spec (inputs_balance inputs) (amount + fee)) as [Hlt|Hge].
  { intros Hrun. injection Hrun as <- _. left. split; [reflexivity|exact Hlt]. }
  intros Hrun. right. split; [exact Hge|].
  destruct (index_inRange (_walletIndex st) && index_inRange (_walletIndex st - 1));
    [|injection Hrun as <- _; left; reflexivity].
  right. cbv zeta in Hrun.
  assert (Hto : forall t a z t' e',
            @Transaction_to lib t a z = t' -> t' = Thrown e' -> isBitcoreError e').
  { intros t a z t' e' <-. unfold Transaction_to, ErrorInvalidArgument.
    destruct (z <? 0); [intros H; injection H as <-; eexists; reflexivity|].
    destruct (Address_error a); [|discriminate].
    intros H; injection H as <-; eexists; reflexivity. }
  assert (Hsign : forall t k e',
            @Transaction_sign lib t k = Thrown e' -> isBitcoreError e').
  { intros t k e'. unfold Transaction_sign.
    destruct (sign_error (tx_inputs t)); [|discriminate].
    intros H; injection H as <-; eexists; reflexivity. }
  assert (Hfrom : forall inputs' t e',
            @Transaction_from lib t inputs' = Thrown e' -> isBitcoreError e').
  { induction inputs' as [|utxo rest IH]; intros t e'; cbn [Transaction_from];
      [discriminate|].
    unfold Transaction_from1.
    destruct (existsb (fun input => sameOutpoint input utxo) (tx_inputs t));
      [apply IH|].
    destruct (UnspentOutput_error utxo); [|apply IH].
    intros H; injection H as <-; eexists; reflexivity. }
  destruct (Transaction_from new_Transaction inputs) as [t0|e0] eqn:H0.
  2:{ injection Hrun as <- _. exact (Hfrom _ _ _ H0). }
  destruct (negb (String.eqb recipient (addressAt (_walletIndex st)))).
  - destruct (Transaction_to t0 recipient amount) as [t1|e1] eqn:H1.
    2:{ injection Hrun as <- _. exact (Hto _ _ _ _ _ H1 eq_refl). }
    destruct (0 <? inputs_balance inputs - amount - fee).
    + destruct (Transaction_to t1 _ _) as [t2|e2] eqn:H2.
      2:{ injection Hrun as <- _. exact (Hto _ _ _ _ _ H2 eq_refl). }
      injection Hrun as Hrun _. exact (Hsign _ _ _ Hrun).
    + injection Hrun as Hrun _. exact (Hsign _ _ _ Hrun).
  - destruct (Transaction_to t0 recipient _) as [t2|e2] eqn:H2.
    2:{ injection Hrun as <- _. exact (Hto _ _ _ _ _ H2 eq_refl). }
    injection Hrun as Hrun _. exact (Hsign _ _ _ Hrun).
Qed.

(** The amount [to] is first called with, which it refuses when negative:
    the amount for another recipient, amount and change merged for the
    change address. *)
Lemma _buildTransaction_refused_amount (inputs : list Input) (recipient : string)
    (amount fee : Z) (st : State) :
  amount + fee <= inputs_balance inputs ->
  1 <= _walletIndex st <= _maxWalletIndex ->
  (exists t0, Transaction_from new_Transaction inputs = Returned t0) ->
  (if String.eqb recipient (addressAt (_walletIndex st))
   then inputs_balance inputs < fee else amount < 0) ->
  _buildTransaction inputs recipient amount fee st = (Thrown ErrorInvalidArgument, st).
Proof.
  intros Hfunds Hidx [t0 Hfrom] Hnegative. rewrite _buildTransaction_eq.
  destruct (Z.ltb_spec (inputs_balance inputs) (amount + fee)); [lia|].
  rewrite (spending_indices_inRange st Hidx). cbv zeta. rewrite Hfrom.
  destruct (String.eqb recipient (addressAt (_walletIndex st))); cbn [negb].
  - rewrite Transaction_to_negative by lia. reflexivity.
  - rewrite Transaction_to_negative by lia. reflexivity.
Qed.


(** C2. [_buildTransaction] fails with InsufficientFunds if and only if the
    satoshis of the inputs sum to strictly less than amount + fee; the
    exception is then the [TopayError] 'Cannot create transaction:
    Insufficient funds.'; and whatever the outcome, hence also when it
    fails, the state of the wallet (the wallet index, the requests made) is
    the one it started from. *)
Theorem buildTransaction_insufficient_funds (inputs : list Input)
    (recipient : string) (amount fee : Z) (st : State) :
  (failsWith InsufficientFunds (fst (_buildTransaction inputs recipient amount fee st))
   <-> inputs_balance inputs < amount + fee)
  /\ (fst (_buildTransaction inputs recipient amount fee st)
      = Thrown (TopayError "Cannot create transaction" "Insufficient funds.")
      <-> inputs_balance inputs < amount + fee)
  /\ snd (_buildTransaction inputs recipient amount fee st) = st.
Proof.
  assert (Hshort : inputs_balance inputs < amount + fee ->
                   fst (_buildTransaction inputs recipient amount fee st)
                   = Thrown (TopayError "Cannot create transaction" "Insufficient funds.")).
  { intros Hlt. rewrite _buildTransaction_eq.
    destruct (Z.ltb_spec (inputs_balance inputs) (amount + fee)); [reflexivity|lia]. }
  assert (Hother : forall e,
            fst (_buildTransaction inputs recipient amount fee st) = Thrown e ->
            kindOf e = Some InsufficientFunds ->
            inputs_balance inputs < amount + fee).
  { intros e He Hkind.
    destruct (_buildTransaction inputs recipient amount fee st) as [o st'] eqn:Hrun.
    cbn [fst] in He. subst o.
    destruct (_buildTransaction_Thrown _ _ _ _ _ _ _ Hrun)
      as [[_ Hlt]|[_ [->|[name ->]]]]; [exact Hlt|discriminate|discriminate]. }
  split; [|split; [|apply _buildTransaction_state]].
  - split.
    + intros [e [He Hkind]]. exact (Hother e He Hkind).
    + intros Hlt. eexists. split; [exact (Hshort Hlt)|reflexivity].
  - split; [|exact Hshort].
    intros He. exact (Hother _ He eq_refl).
Qed.


End Builder.

(** ** The address scan *)

Section Scanner.
Context {lib : Bitcoincashjs}.
Variable restClient : TopayRestClient.t.

(** The model of the scan is the loop of the source: it satisfies the
    equation of [while], so the iterations it is given never run out. *)
Lemma _updateWalletIndex_unfold (st : State) :
  _updateWalletIndex restClient st
  = _updateWalletIndex_step restClient (_updateWalletIndex restClient) st.
Proof.
  unfold _updateWalletIndex_step, _updateWalletIndex, bind, get_walletIndex.
  destruct (Z.ltb_spec (_walletIndex st) _maxWalletIndex) as [Hlt|Hge].
  - replace (Z.to_nat (_maxWalletIndex - _walletIndex st))
      with (S (Z.to_nat (_maxWalletIndex - (_walletIndex st + 1)))) by lia.
    cbn [_updateWalletIndex_loop]. unfold bind, get_walletIndex.
    destruct (Z.ltb_spec (_walletIndex st) _maxWalletIndex); [|lia].
    destruct (_getAddress (_walletIndex st) st) as [[a|e] st1];
      [|reflexivity].
    destruct (await (TopayRestClient.getAddress restClient) GetAddress a st1)
      as [[data|e] st2]; [|reflexivity].
    destruct (List.length (transactions data) =? 0)%nat; reflexivity.
  - replace (Z.to_nat (_maxWalletIndex - _walletIndex st)) with O by lia.
    reflexivity.
Qed.

(** Whatever the client answers, the loop only moves the index forward,
    never past the bound, and only asks for address histories. *)
Lemma _updateWalletIndex_loop_frame (fuel : nat) :
  forall (st : State) (o : Outcome unit) (st' : State),
    _updateWalletIndex_loop restClient fuel st = (o, st') ->
    _walletIndex st <= _walletIndex st'
    /\ _walletIndex st' <= Z.max (_walletIndex st) _maxWalletIndex
    /\ exists l, requests st' = requests st ++ l /\ Forall isGetAddress l.
Proof.
  assert (Hsame : forall st : State,
            _walletIndex st <= _walletIndex st
            /\ _walletIndex st <= Z.max (_walletIndex st) _maxWalletIndex
            /\ exists l, requests st = requests st ++ l /\ Forall isGetAddress l).
  { intros st. split; [lia|]. split; [lia|]. exists []. rewrite app_nil_r. auto. }
  assert (Hasked : forall (st : State) (a : string),
            exists l, requests st ++ [GetAddress a] = requests st ++ l
                      /\ Forall isGetAddress l).
  { intros st a. eexists. split; [reflexivity|].
    repeat constructor. eexists; reflexivity. }
  induction fuel as [|fuel IH]; intros st o st' Hrun.
  - cbn in Hrun. injection Hrun as <- <-. apply Hsame.
  - cbn [_updateWalletIndex_loop] in Hrun.
    unfold bind at 1 in Hrun. unfold get_walletIndex in Hrun.
    destruct (Z.ltb_spec (_walletIndex st) _maxWalletIndex) as [Hlt|Hge];
      [|injection Hrun as <- <-; apply Hsame].
    unfold bind at 1 in Hrun. rewrite _getAddress_eq in Hrun.
    destruct (index_inRange (_walletIndex st));
      [|injection Hrun as <- <-; apply Hsame].
    unfold bind at 1 in Hrun. unfold await at 1 in Hrun.
    destruct (TopayRestClient.getAddress restClient (requests st)
                (addressAt (_walletIndex st))) as [data|e].
    + destruct (List.length (transactions data) =? 0)%nat.
      * injection Hrun as <- <-. cbn. split; [lia|]. split; [lia|]. apply Hasked.
      * unfold bind at 1 in Hrun. unfold set_walletIndex at 1 in Hrun.
        apply IH in Hrun. cbn [_walletIndex requests] in Hrun.
        destruct Hrun as [Hle [Hmax [l [Hreq Hall]]]].
        split; [lia|]. split; [lia|].
        eexists. split; [rewrite Hreq, <- app_assoc; reflexivity|].
        constructor; [eexists; reflexivity|assumption].
    + injection Hrun as <- <-. cbn. split; [lia|]. split; [lia|]. apply Hasked.
Qed.

Lemma _updateWalletIndex_frame (st : State) (o : Outcome unit) (st' : State) :
  _updateWalletIndex restClient st = (o, st') ->
  _walletIndex st <= _walletIndex st'
  /\ _walletIndex st' <= Z.max (_walletIndex st) _maxWalletIndex
  /\ exists l, requests st' = requests st ++ l /\ Forall isGetAddress l.
Proof.
  unfold _updateWalletIndex, bind, get_walletIndex.
  apply _updateWalletIndex_loop_frame.
Qed.

Lemma _updateWalletIndex_inv (st : State) :
  walletIndex_inv st -> walletIndex_inv (snd (_updateWalletIndex restClient st)).
Proof.
  unfold walletIndex_inv. intros H.
  destruct (_updateWalletIndex restClient st) as [o st'] eqn:Hrun.
  destruct (_updateWalletIndex_frame st o st' Hrun) as [Hle [Hmax _]].
  cbn [snd]. lia.
Qed.

(** The first unused index from a start is unique. *)
Lemma firstUnusedFrom_unique (history : string -> list string) (i0 r r' : Z) :
  firstUnusedFrom history i0 r -> firstUnusedFrom history i0 r' -> r = r'.
Proof.
  intros [Hr [Hused Hfree]] [Hr' [Hused' Hfree']].
  destruct (Z.lt_trichotomy r r') as [Hlt|[Heq|Hgt]]; [|assumption|]; exfalso.
  - apply (Hused' r); [lia|]. apply Hfree. lia.
  - apply (Hused r'); [lia|]. apply Hfree'. lia.
Qed.

(** Against a client that answers from a history function, the loop stops
    on the first unused index. *)
Lemma _updateWalletIndex_loop_history (history : string -> list string)
    (fuel : nat) (st : State) :
  answersHistory restClient history ->
  walletIndex_inv st ->
  _maxWalletIndex - _walletIndex st <= Z.of_nat fuel ->
  exists r l,
    _updateWalletIndex_loop restClient fuel st
    = (Returned tt, {| _walletIndex := r; requests := requests st ++ l |})
    /\ firstUnusedFrom history (_walletIndex st) r.
Proof.
  intros Hclient. revert st.
  assert (Hstop : forall st : State, walletIndex_inv st ->
            _maxWalletIndex <= _walletIndex st ->
            exists r l,
              (Returned tt, st)
              = (Returned tt, {| _walletIndex := r; requests := requests st ++ l |})
              /\ firstUnusedFrom history (_walletIndex st) r).
  { intros [i log] [Hlo Hhi] Hge. cbn in *. exists i, []. rewrite app_nil_r.
    split; [reflexivity|]. split; [lia|]. split; intros; lia. }
  induction fuel as [|fuel IH]; intros st Hinv Hfuel.
  - cbn [_updateWalletIndex_loop]. unfold ret. apply Hstop; [assumption|lia].
  - cbn [_updateWalletIndex_loop]. unfold bind at 1. unfold get_walletIndex.
    destruct (Z.ltb_spec (_walletIndex st) _maxWalletIndex) as [Hlt|Hge];
      [|apply Hstop; assumption].
    unfold bind at 1. rewrite _getAddress_eq.
    replace (index_inRange (_walletIndex st)) with true
      by (symmetry; apply index_inRange_true; exact Hinv).
    unfold bind at 1. unfold await at 1. rewrite Hclient. cbn [transactions].
    destruct (history (addressAt (_walletIndex st))) as [|tx txs] eqn:Hhist.
    + cbn. exists (_walletIndex st). eexists. split; [reflexivity|].
      split; [destruct Hinv; lia|]. split; [intros; lia|]. intros _. exact Hhist.
    + cbn [List.length Nat.eqb]. unfold bind at 1. unfold set_walletIndex at 1.
      match goal with
      | |- context [_updateWalletIndex_loop restClient fuel ?s] =>
          destruct (IH s) as [r [l [Hrun [Hr [Hused Hfree]]]]]
      end.
      * unfold walletIndex_inv in *. cbn [_walletIndex]. lia.
      * cbn [_walletIndex]. lia.
      * cbn [_walletIndex requests] in *. exists r. eexists.
        split; [rewrite Hrun, <- app_assoc; reflexivity|].
        split; [lia|]. split; [|assumption].
        intros j Hj. destruct (Z.eq_dec j (_walletIndex st)) as [->|Hne].
        -- rewrite Hhist. discriminate.
        -- apply Hused. lia.
Qed.

(** C3. Against a backend that answers from a history function, from any
    wallet index i0 within 0..1000, [_updateWalletIndex] returns with the
    wallet index on the smallest index i >= i0 whose address has an empty
    history, or on MAX_INDEX = 1000 when every address below 1000 from i0
    on is used; the index has not decreased; and a second scan from the
    state reached returns with the same index. *)
Theorem updateWalletIndex_first_unused (history : string -> list string)
    (st : State) :
  answersHistory restClient history ->
  walletIndex_inv st ->
  exists st',
    _updateWalletIndex restClient st = (Returned tt, st')
    /\ firstUnusedFrom history (_walletIndex st) (_walletIndex st')
    /\ _walletIndex st <= _walletIndex st' <= _maxWalletIndex
    /\ exists st'',
         _updateWalletIndex restClient st' = (Returned tt, st'')
         /\ _walletIndex st'' = _walletIndex st'.
Proof.
  intros Hclient Hinv.
  assert (Hscan : forall s, walletIndex_inv s ->
            exists r l,
              _updateWalletIndex restClient s
              = (Returned tt, {| _walletIndex := r; requests := requests s ++ l |})
              /\ firstUnusedFrom history (_walletIndex s) r).
  { intros s Hs. unfold _updateWalletIndex, bind, get_walletIndex.
    apply _updateWalletIndex_loop_history; [assumption|assumption|].
    destruct Hs. lia. }
  destruct (Hscan st Hinv) as [r [l [Hrun Hfirst]]].
  eexists. split; [exact Hrun|]. cbn [_walletIndex].
  split; [exact Hfirst|].
  pose proof Hfirst as [Hr [Hused Hfree]].
  split; [lia|].
  match goal with
  | |- context [_updateWalletIndex restClient ?s] =>
      destruct (Hscan s) as [r' [l' [Hrun' Hfirst']]]
  end.
  { unfold walletIndex_inv in *. cbn [_walletIndex]. lia. }
  eexists. split; [exact Hrun'|]. cbn [_walletIndex] in *.
  symmetry. apply (firstUnusedFrom_unique history r); [|exact Hfirst'].
  split; [lia|]. split; [intros; lia|exact Hfree].
Qed.

End Scanner.

(** ** Numbers *)

(** [Math.ceil] on a finite number is its ceiling. *)
Lemma Number_ceil_is_ceiling (x : spec_float) :
  Number.is_finite x = true -> Number.is_ceiling (Number.ceil x) x.
Proof.
  destruct x as [s|s| |s m e]; cbn [Number.is_finite]; try discriminate; intros _.
  - reflexivity.
  - unfold Number.is_ceiling, Number.ceil. cbn zeta.
    destruct (0 <=? e) eqn:He; [reflexivity|].
    apply Z.leb_gt in He.
    assert (Hpow : 0 < 2 ^ (- e)) by (apply Z.pow_pos_nonneg; lia).
    set (v := cond_Zopp s (Z.pos m)). set (d := 2 ^ (- e)) in *.
    pose proof (Z.div_mod (- v) d ltac:(lia)) as Hdiv.
    pose proof (Z.mod_pos_bound (- v) d Hpow) as Hmod.
    nia.
Qed.

(** The literal [1.1] is the quotient of 11 by 10, correctly rounded. *)
Example Number_lit_1_1 :
  Number.div (Number.of_Z 11) (Number.of_Z 10) = Number.lit_1_1.
Proof. vm_compute. reflexivity. Qed.

(** Halving the length of a hexadecimal string gives its number of bytes. *)
Example Number_half_680 :
  Number.div (Number.of_Z 680) (Number.of_Z 2) = Number.of_Z 340.
Proof. vm_compute. reflexivity. Qed.

(** In binary64 the product of 340 bytes by [1.1] lies just above 374:
    the fee for 340 bytes is 375 satoshis; for 341 bytes, 376. *)
Example Number_fee_340_341 :
  Number.ceil (Number.mul (Number.of_Z 340) _satoshisPerByte) = 375
  /\ Number.ceil (Number.mul (Number.of_Z 341) _satoshisPerByte) = 376.
Proof. vm_compute. split; reflexivity. Qed.

Lemma holdsFrom_sound (f : Z -> bool) (count : nat) :
  forall from, holdsFrom f from count = true ->
  forall z, from <= z < from + Z.of_nat count -> f z = true.
Proof.
  induction count as [|count IH]; intros from Hall z Hz; [lia|].
  cbn [holdsFrom] in Hall. apply andb_true_iff in Hall. destruct Hall as [Hhere Hrest].
  destruct (Z.eq_dec z from) as [->|Hne]; [exact Hhere|].
  apply (IH (from + 1) Hrest). lia.
Qed.

(** Up to 20000 bytes the fee is the exact [11/10] of the bytes rounded up,
    except on some multiples of 10, where the binary64 product lies just
    above the integer and the fee is one satoshi more. *)
Lemma feeOfHexLength_near_exact (bytes : Z) :
  0 <= bytes < 20000 ->
  exactFee bytes <= feeOfHexLength (2 * bytes) <= exactFee bytes + 1
  /\ (bytes mod 10 <> 0 -> feeOfHexLength (2 * bytes) = exactFee bytes).
Proof.
  intros Hrange.
  assert (Hall : holdsFrom feeNearExact 0 (Z.to_nat 20000) = true)
    by (vm_compute; reflexivity).
  pose proof (holdsFrom_sound feeNearExact _ 0 Hall bytes ltac:(lia)) as Hnear.
  unfold feeNearExact in Hnear. cbv zeta in Hnear.
  destruct (Z.eqb_spec (bytes mod 10) 0) as [Hten|Hoff].
  - apply orb_true_iff in Hnear. split; [|intros H; contradiction].
    destruct Hnear as [H|H]; apply Z.eqb_eq in H; lia.
  - apply Z.eqb_eq in Hnear. split; [lia|intros _; exact Hnear].
Qed.

(** ** The wallet index under every operation *)

Section Advances.
Context {lib : Bitcoincashjs}.
Variable restClient : TopayRestClient.t.

Lemma advances_ret {A : Type} (a : A) : advances (ret a).
Proof. intros st H. cbn. split; [assumption|lia]. Qed.

Lemma advances_throw {A : Type} (e : Exception) : advances (@throw A e).
Proof. intros st H. cbn. split; [assumption|lia]. Qed.

Lemma advances_bind {A B : Type} (m : M A) (k : A -> M B) :
  advances m -> (forall a, advances (k a)) -> advances (bind m k).
Proof.
  intros Hm Hk st Hinv. unfold bind.
  specialize (Hm st Hinv). destruct (m st) as [[a|e] st1]; cbn [snd] in *.
  - destruct Hm as [Hinv1 Hle]. destruct (Hk a st1 Hinv1). split; [assumption|lia].
  - exact Hm.
Qed.

Lemma advances_checkArgument (condition : bool) (message : string) :
  advances (checkArgument condition message).
Proof.
  unfold checkArgument. destruct condition; [apply advances_ret|apply advances_throw].
Qed.

Lemma advances_get_walletIndex : advances get_walletIndex.
Proof. intros st H. cbn. split; [assumption|lia]. Qed.

Lemma advances_await {A : Type} (method : list Request -> string -> Outcome A)
    (req : string -> Request) (arg : string) :
  advances (await method req arg).
Proof. intros st H. cbn. split; [exact H|lia]. Qed.

#[local] Hint Resolve advances_ret advances_throw advances_checkArgument
  advances_get_walletIndex advances_await : wallet.

(** Through the [bind]s of a method, one computation at a time. *)
Ltac advances_steps :=
  repeat first [ solve [auto with wallet] | apply advances_bind; [|intros ?] ].

Lemma advances__getAddress (index : Z) : advances (_getAddress index).
Proof. unfold _getAddress, _getPublicKey. advances_steps. Qed.

Lemma advances__getPrivateKey (index : Z) : advances (_getPrivateKey index).
Proof. unfold _getPrivateKey. advances_steps. Qed.

Lemma advances__updateWalletIndex : advances (_updateWalletIndex restClient).
Proof.
  intros st Hinv. split; [apply _updateWalletIndex_inv; assumption|].
  destruct (_updateWalletIndex restClient st) as [o st'] eqn:Hrun.
  apply _updateWalletIndex_frame in Hrun. cbn [snd]. tauto.
Qed.

Lemma advances__buildTransaction (inputs : list Input) (recipient : string)
    (amount fee : Z) :
  advances (_buildTransaction inputs recipient amount fee).
Proof.
  intros st Hinv. rewrite _buildTransaction_state. split; [assumption|lia].
Qed.

#[local] Hint Resolve advances__getAddress advances__getPrivateKey
  advances__updateWalletIndex advances__buildTransaction : wallet.

Lemma advances__getAvailableInputs : advances (_getAvailableInputs restClient).
Proof. unfold _getAvailableInputs. advances_steps. Qed.

Lemma advances__calculateFee (inputs : list Input) (recipient : string)
    (amount : Z) :
  advances (_calculateFee inputs recipient amount).
Proof. unfold _calculateFee. advances_steps. Qed.

#[local] Hint Resolve advances__getAvailableInputs advances__calculateFee : wallet.

Lemma advances_initialize : advances (initialize restClient).
Proof. apply advances__updateWalletIndex. Qed.

Lemma advances_getBalance : advances (getBalance restClient).
Proof.
  unfold getBalance.
  apply advances_bind; [apply advances__updateWalletIndex|intros _].
  apply advances_bind; [apply advances_get_walletIndex|intros walletIndex].
  destruct (walletIndex =? 0); advances_steps.
Qed.

Lemma advances_getReceiveAddress : advances (getReceiveAddress restClient).
Proof. unfold getReceiveAddress. advances_steps. Qed.

Lemma advances_send (recipient : string) (amount fee : JsValue) :
  advances (send restClient recipient amount fee).
Proof.
  unfold send.
  do 5 (apply advances_bind; [auto with wallet|intros ?]).
  apply advances_bind; [destruct (isUndefined fee); auto with wallet|intros ?].
  advances_steps.
Qed.

Lemma advances_widthraw (recipient : string) :
  advances (widthraw restClient recipient).
Proof. unfold widthraw. advances_steps. Qed.

(** C10. The constructor leaves the wallet index at 0, within 0..1000; from
    a state within these bounds each public operation ([initialize],
    [getBalance], [getReceiveAddress], [send], [widthraw]), whatever its
    arguments, the answers of the client and its outcome, stops in a state
    within the bounds, with an index that has not decreased. *)
Theorem walletIndex_invariant (st : State) (recipient : string)
    (amount fee : JsValue) :
  walletIndex_inv st ->
  _walletIndex new_TopayWallet = 0
  /\ walletIndex_inv new_TopayWallet
  /\ advances (initialize restClient)
  /\ advances (getBalance restClient)
  /\ advances (getReceiveAddress restClient)
  /\ advances (send restClient recipient amount fee)
  /\ advances (widthraw restClient recipient)
  /\ walletIndex_inv (snd (initialize restClient st))
  /\ walletIndex_inv (snd (getBalance restClient st))
  /\ walletIndex_inv (snd (getReceiveAddress restClient st))
  /\ walletIndex_inv (snd (send restClient recipient amount fee st))
  /\ walletIndex_inv (snd (widthraw restClient recipient st)).
Proof.
  intros Hinv.
  split; [reflexivity|].
  split; [unfold walletIndex_inv, _maxWalletIndex; cbn; lia|].
  split; [apply advances_initialize|].
  split; [apply advances_getBalance|].
  split; [apply advances_getReceiveAddress|].
  split; [apply advances_send|].
  split; [apply advances_widthraw|].
  split; [apply advances_initialize; assumption|].
  split; [apply advances_getBalance; assumption|].
  split; [apply advances_getReceiveAddress; assumption|].
  split; [apply advances_send; assumption|].
  apply advances_widthraw; assumption.
Qed.

End Advances.

(** ** Input collection, fee estimation and the facade *)

Section Facade.
Context {lib : Bitcoincashjs}.
Variable restClient : TopayRestClient.t.

(** The two ways [_getAvailableInputs] goes: the index before the wallet
    index is refused by the key derivation, before anything is requested;
    or the UTXO set of its address is requested and normalized. *)
Lemma _getAvailableInputs_eq (st : State) :
  _getAvailableInputs restClient st
  = if index_inRange (_walletIndex st - 1) then
      (Outcome_map (map input_of_utxo)
         (TopayRestClient.getUtxoSet restClient (requests st)
            (addressAt (_walletIndex st - 1))),
       {| _walletIndex := _walletIndex st;
          requests := requests st ++ [GetUtxoSet (addressAt (_walletIndex st - 1))] |})
    else (Thrown (IllegalArgumentError "index"), st).
Proof.
  unfold _getAvailableInputs. unfold bind at 1. unfold get_walletIndex.
  unfold bind at 1. rewrite _getAddress_eq.
  destruct (index_inRange (_walletIndex st - 1)); [|reflexivity].
  unfold bind, await, ret.
  destruct (TopayRestClient.getUtxoSet restClient (requests st)
              (addressAt (_walletIndex st - 1))); reflexivity.
Qed.

(** The fee is read off the transaction built with fee 0. *)
Lemma _calculateFee_eq (inputs : list Input) (recipient : string) (amount : Z)
    (st : State) :
  _calculateFee inputs recipient amount st
  = (Outcome_map
       (fun transaction =>
          Number.ceil (Number.mul (transactionBytes transaction) _satoshisPerByte))
       (fst (_buildTransaction inputs recipient amount 0 st)),
     st).
Proof.
  unfold _calculateFee, bind.
  pose proof (_buildTransaction_state inputs recipient amount 0 st) as Hst.
  destruct (_buildTransaction inputs recipient amount 0 st) as [[t|e] st'];
    cbn [fst snd] in *; subst st'; reflexivity.
Qed.

(** C5 (as amended). On a wallet index of 0, [_getAvailableInputs] fails
    with the error of the argument check on the derivation index (index -1
    is out of range: the InvalidArgument kind), in the state it started
    from, so that no UTXO query is made; on a wallet index from 1 to 1000
    it requests the UTXO set of the address at wallet index - 1 and returns
    its elements normalized to inputs (or throws what the client threw). *)
Theorem getAvailableInputs_spec (st : State) :
  walletIndex_inv st ->
  if _walletIndex st =? 0 then
    _getAvailableInputs restClient st = (Thrown (IllegalArgumentError "index"), st)
    /\ failsWith InvalidArgument (fst (_getAvailableInputs restClient st))
  else
    _getAvailableInputs restClient st
    = (Outcome_map (map input_of_utxo)
         (TopayRestClient.getUtxoSet restClient (requests st)
            (addressAt (_walletIndex st - 1))),
       {| _walletIndex := _walletIndex st;
          requests := requests st ++ [GetUtxoSet (addressAt (_walletIndex st - 1))] |}).
Proof.
  intros [Hlo Hhi]. rewrite _getAvailableInputs_eq.
  destruct (Z.eqb_spec (_walletIndex st) 0) as [Hzero|Hpos].
  - rewrite Hzero. cbn. split; [reflexivity|].
    eexists. split; reflexivity.
  - replace (index_inRange (_walletIndex st - 1)) with true; [reflexivity|].
    symmetry. apply index_inRange_true. lia.
Qed.

(** C9. [getBalance] first re-scans.  When the scan returns with the wallet
    index at 0, [getBalance] returns 0 in the state the scan left, whose
    requests beyond those made before are address-history requests only: no
    balance query is made.  When the scan returns with a wallet index of at
    least 1, [getBalance] asks the client for the balance of the address at
    wallet index - 1 and its outcome is the client's answer.  When the scan
    throws, [getBalance] throws the same. *)
Theorem getBalance_spec (st : State) :
  walletIndex_inv st ->
  let scanned := _updateWalletIndex restClient st in
  let st1 := snd scanned in
  match fst scanned with
  | Thrown e => getBalance restClient st = (Thrown e, st1)
  | Returned _ =>
      if _walletIndex st1 =? 0 then
        getBalance restClient st = (Returned 0, st1)
        /\ exists l, requests st1 = requests st ++ l /\ Forall isGetAddress l
      else
        let lastUsed := addressAt (_walletIndex st1 - 1) in
        getBalance restClient st
        = (TopayRestClient.getBalance restClient (requests st1) lastUsed,
           {| _walletIndex := _walletIndex st1;
              requests := requests st1 ++ [GetBalance lastUsed] |})
  end.
Proof.
  intros Hinv scanned st1. subst scanned st1.
  pose proof (_updateWalletIndex_inv restClient st Hinv) as Hinv1.
  destruct (_updateWalletIndex restClient st) as [[[]|e] st1] eqn:Hscan;
    cbn [fst snd] in *.
  - unfold getBalance. rewrite (bind_Returned _ _ _ _ _ Hscan).
    cbn beta. rewrite bind_get_walletIndex.
    destruct (Z.eqb_spec (_walletIndex st1) 0) as [Hzero|Hpos].
    + split; [reflexivity|].
      apply _updateWalletIndex_frame in Hscan. tauto.
    + unfold bind at 1. rewrite _getAddress_eq.
      replace (index_inRange (_walletIndex st1 - 1)) with true
        by (symmetry; apply index_inRange_true; destruct Hinv1; lia).
      unfold bind, await, ret. cbn zeta.
      destruct (TopayRestClient.getBalance restClient (requests st1)
                  (addressAt (_walletIndex st1 - 1))); reflexivity.
  - unfold getBalance. apply bind_Thrown. exact Hscan.
Qed.

Lemma send_checks_pass (recipient : string) (amount fee : JsValue) (st : State) :
  send_arguments_ok recipient amount fee = true ->
  send restClient recipient amount fee st
  = (_updateWalletIndex restClient ;;;
     inputs <- _getAvailableInputs restClient ;;
     fee' <- (if isUndefined fee
              then _calculateFee inputs recipient (JsValue_toInteger amount)
              else ret (JsValue_toInteger fee)) ;;
     transaction <- _buildTransaction inputs recipient (JsValue_toInteger amount) fee' ;;
     transactionId <- await (TopayRestClient.sendTransaction restClient)
                        SendTransaction (Transaction_toString transaction) ;;
     ret transactionId) st.
Proof.
  unfold send_arguments_ok. rewrite !andb_true_iff. intros [[Hr Ha] Hf].
  unfold send. rewrite Hr, Ha, Hf. reflexivity.
Qed.

(** C8 (as amended). A call of [send] whose recipient is not a valid
    address, or whose amount is not an integer, or whose fee is given and is
    not an integer, fails with the error of the argument check
    (InvalidArgument) in the state it started from: the wallet index has not
    been rescanned and nothing has been requested from the client. *)
Theorem send_invalid_argument (recipient : string) (amount fee : JsValue)
    (st : State) :
  Address_isValid recipient = false
  \/ Number_isInteger amount = false
  \/ (isUndefined fee = false /\ Number_isInteger fee = false) ->
  exists message,
    send restClient recipient amount fee st
    = (Thrown (IllegalArgumentError message), st)
    /\ In message ["recipient"; "amount"; "fee"]
    /\ failsWith InvalidArgument (fst (send restClient recipient amount fee st)).
Proof.
  unfold send. intros Hbad.
  assert (Hfails : forall message : string,
            failsWith InvalidArgument
              (fst (@Thrown string (IllegalArgumentError message), st))).
  { intros message. eexists. split; reflexivity. }
  destruct (Address_isValid recipient) eqn:Hr.
  - destruct (Number_isInteger amount) eqn:Ha.
    + destruct Hbad as [Hbad|[Hbad|[Hu Hf]]]; try discriminate.
      rewrite Hu, Hf. exists "fee".
      split; [reflexivity|]. split; [cbn; tauto|]. apply Hfails.
    + exists "amount".
      split; [reflexivity|]. split; [cbn; tauto|]. apply Hfails.
  - exists "recipient".
    split; [reflexivity|]. split; [cbn; tauto|]. apply Hfails.
Qed.

(** C6 (as amended). [_calculateFee] builds the transaction from its
    arguments with fee 0 and nothing else.  When that build throws,
    [_calculateFee] throws the same.  When it returns a transaction, the fee
    is the length of its hexadecimal serialization divided by 2 (its number
    of bytes), multiplied by the rate [1.1] as numbers are multiplied (in
    binary64) and rounded up by [Math.ceil]: the least integer not below
    that product.  For a serialization of [n] bytes, below 20000, this is
    11 n / 10 rounded up when [n] is no multiple of 10, and that value or
    one satoshi more when it is.  The state of the wallet is untouched. *)
Theorem calculateFee_spec (inputs : list Input) (recipient : string)
    (amount : Z) (st : State) :
  match fst (_buildTransaction inputs recipient amount 0 st) with
  | Returned transaction =>
      let hexLength := Z.of_nat (String.length (Transaction_toString transaction)) in
      let bytes := Number.div (Number.of_Z hexLength) (Number.of_Z 2) in
      let product := Number.mul bytes Number.lit_1_1 in
      _calculateFee inputs recipient amount st = (Returned (Number.ceil product), st)
      /\ (Number.is_finite product = true ->
          Number.is_ceiling (Number.ceil product) product)
      /\ (forall n,
            hexLength = 2 * n -> n < 20000 ->
            exactFee n <= Number.ceil product <= exactFee n + 1
            /\ (n mod 10 <> 0 -> Number.ceil product = exactFee n))
  | Thrown e =>
      _calculateFee inputs recipient amount st = (Thrown e, st)
  end.
Proof.
  rewrite _calculateFee_eq.
  destruct (fst (_buildTransaction inputs recipient amount 0 st)) as [t|e];
    cbn [Outcome_map]; [|reflexivity].
  split; [reflexivity|]. split; [apply Number_ceil_is_ceiling|].
  intros n Hlength Hbound. rewrite Hlength.
  apply (feeOfHexLength_near_exact n). lia.
Qed.

(** The fee is a function of the inputs, the recipient, the amount and the
    wallet index: the requests made so far play no part. *)
Lemma _calculateFee_explicit (inputs : list Input) (recipient : string)
    (amount : Z) (st : State) :
  1 <= _walletIndex st <= _maxWalletIndex ->
  amount <= inputs_balance inputs ->
  inputsAccepted inputs = true ->
  Forall outputAccepted
    (expected_outputs recipient (addressAt (_walletIndex st))
       (inputs_balance inputs) amount 0) ->
  _calculateFee inputs recipient amount st
  = (Returned
       (Number.ceil
          (Number.mul
             (transactionBytes
                {| tx_inputs := heldInputs inputs;
                   tx_outputs := expected_outputs recipient (addressAt (_walletIndex st))
                                   (inputs_balance inputs) amount 0;
                   tx_signedWith := [hdPrivateKey_derive (_walletIndex st - 1)] |})
             _satoshisPerByte)),
     st).
Proof.
  intros Hidx Hfunds Hinputs Houtputs. rewrite _calculateFee_eq.
  rewrite _buildTransaction_returns by (assumption || lia). reflexivity.
Qed.

(** C7. For a valid recipient that is not the change address (the address
    at the wallet index), when the re-scan returns on a wallet index of at
    least 1, the client returns the UTXO set of the last used address and
    bitcoincashjs takes its elements as inputs and the recipient as a
    destination, [widthraw] spends all the inputs of that set.  With the sum
    of their satoshis as balance and the fee estimated for sending the whole
    balance: when the fee does not exceed the balance, it hands the client,
    as its last request, the serialization of the transaction over these
    inputs that has the single output (recipient, balance - fee) and no
    change output, and its outcome is the answer of the client to that
    broadcast; when the fee exceeds the balance, the amount balance - fee is
    refused by the transaction builder and nothing is broadcast.  The
    inputs of the transaction are those of the set, all of them when no two
    spend the same output. *)
Theorem widthraw_single_output (recipient : string) (st st1 : State)
    (utxoSet : list Utxo) :
  walletIndex_inv st ->
  Address_isValid recipient = true ->
  _updateWalletIndex restClient st = (Returned tt, st1) ->
  1 <= _walletIndex st1 ->
  TopayRestClient.getUtxoSet restClient (requests st1)
    (addressAt (_walletIndex st1 - 1)) = Returned utxoSet ->
  recipient <> addressAt (_walletIndex st1) ->
  let inputs := map input_of_utxo utxoSet in
  let balance := satoshiTotal inputs in
  inputsAccepted inputs = true ->
  addressAccepted recipient = true ->
  0 <= balance ->
  let privateKey := hdPrivateKey_derive (_walletIndex st1 - 1) in
  let sizing :=
    {| tx_inputs := heldInputs inputs;
       tx_outputs := [ {| output_address := recipient; output_satoshis := balance |} ];
       tx_signedWith := [privateKey] |} in
  let fee := Number.ceil (Number.mul (transactionBytes sizing) _satoshisPerByte) in
  let transaction :=
    {| tx_inputs := heldInputs inputs;
       tx_outputs := [ {| output_address := recipient;
                          output_satoshis := balance - fee |} ];
       tx_signedWith := [privateKey] |} in
  let log := requests st1 ++ [GetUtxoSet (addressAt (_walletIndex st1 - 1))] in
  (fee <= balance ->
   widthraw restClient recipient st
   = (TopayRestClient.sendTransaction restClient log (Transaction_toString transaction),
      {| _walletIndex := _walletIndex st1;
         requests := log ++ [SendTransaction (Transaction_toString transaction)] |}))
  /\ (balance < fee ->
      widthraw restClient recipient st
      = (Thrown ErrorInvalidArgument,
         {| _walletIndex := _walletIndex st1; requests := log |}))
  /\ (distinctOutpoints inputs = true -> heldInputs inputs = inputs).
Proof.
  intros Hinv Hvalid Hscan Hused Hutxo Hother inputs balance Hinputs Hrecipient
    Hbalance privateKey sizing fee transaction log.
  pose proof (_updateWalletIndex_inv restClient st Hinv) as Hinv1.
  rewrite Hscan in Hinv1. cbn [snd] in Hinv1.
  assert (Hidx : 1 <= _walletIndex st1 <= _maxWalletIndex)
    by (destruct Hinv1; lia).
  apply String.eqb_neq in Hother.
  pose proof (inputs_balance_total inputs) as Htotal. fold balance in Htotal.
  set (st2 := {| _walletIndex := _walletIndex st1; requests := log |}).
  assert (Hinputs' : _getAvailableInputs restClient st1 = (Returned inputs, st2)).
  { rewrite _getAvailableInputs_eq.
    replace (index_inRange (_walletIndex st1 - 1)) with true
      by (symmetry; apply index_inRange_true; lia).
    rewrite Hutxo. reflexivity. }
  assert (Hidx2 : 1 <= _walletIndex st2 <= _maxWalletIndex) by exact Hidx.
  assert (Hfee : _calculateFee inputs recipient (inputs_balance inputs) st2
                 = (Returned fee, st2)).
  { rewrite (_calculateFee_explicit inputs recipient _ st2 Hidx2);
      [|lia|exact Hinputs|].
    - unfold expected_outputs. cbn [_walletIndex st2]. rewrite Hother, Htotal.
      replace (0 <? balance - balance - 0) with false
        by (symmetry; apply Z.ltb_ge; lia).
      reflexivity.
    - unfold expected_outputs. cbn [_walletIndex st2]. rewrite Hother, Htotal.
      replace (0 <? balance - balance - 0) with false
        by (symmetry; apply Z.ltb_ge; lia).
      apply Forall_cons; [|apply Forall_nil].
      split; cbn [output_satoshis output_address]; [lia|exact Hrecipient]. }
  assert (Hgoes : widthraw restClient recipient st
                  = (transaction <- _buildTransaction inputs recipient
                                      (inputs_balance inputs - fee) fee ;;
                     transactionId <- await (TopayRestClient.sendTransaction restClient)
                                        SendTransaction (Transaction_toString transaction) ;;
                     ret transactionId) st2).
  { unfold widthraw. rewrite Hvalid. unfold checkArgument.
    rewrite (bind_Returned (ret tt) _ st st tt eq_refl). cbn beta.
    rewrite (bind_Returned _ _ _ _ _ Hscan). cbn beta.
    rewrite (bind_Returned _ _ _ _ _ Hinputs'). cbn beta zeta.
    rewrite (bind_Returned _ _ _ _ _ Hfee). reflexivity. }
  rewrite Hgoes, Htotal. split; [|split].
  - intros Hcovered.
    assert (Hbuild : _buildTransaction inputs recipient (balance - fee) fee st2
                     = (Returned transaction, st2)).
    { rewrite _buildTransaction_returns; [| |exact Hidx2|exact Hinputs|];
        rewrite ?Htotal; [|lia|].
      - unfold expected_outputs. cbn [_walletIndex st2]. rewrite Hother.
        replace (0 <? balance - (balance - fee) - fee) with false
          by (symmetry; apply Z.ltb_ge; lia).
        reflexivity.
      - unfold expected_outputs. cbn [_walletIndex st2]. rewrite Hother.
        replace (0 <? balance - (balance - fee) - fee) with false
          by (symmetry; apply Z.ltb_ge; lia).
        apply Forall_cons; [|apply Forall_nil].
        split; cbn [output_satoshis output_address]; [lia|exact Hrecipient]. }
    rewrite (bind_Returned _ _ _ _ _ Hbuild). cbn beta.
    unfold bind, await, ret. cbn [requests _walletIndex st2].
    destruct (TopayRestClient.sendTransaction restClient log
                (Transaction_toString transaction)); reflexivity.
  - intros Hshort. apply bind_Thrown.
    apply _buildTransaction_refused_amount; [rewrite Htotal; lia|exact Hidx2| |].
    + unfold inputsAccepted in Hinputs.
      destruct (Transaction_from new_Transaction inputs) as [t0|e]; [|discriminate].
      exists t0. reflexivity.
    + cbn [_walletIndex st2]. rewrite Hother. lia.
  - intros Hdistinct. apply heldInputs_distinct; assumption.
Qed.

End Facade.

(** ** The statements on the wallet of the tests *)



Lemma dirtyClient_answersHistory (used balance : Z) :
  answersHistory (Fixture.dirtyClient used balance) (Fixture.dirtyHistory used).
Proof. intros log a. reflexivity. Qed.

(** The scan of a new wallet against three used addresses stops on index 3,
    and stays there. *)
Lemma updateWalletIndex_first_unused_witness :
  answersHistory (Fixture.dirtyClient 3 0) (Fixture.dirtyHistory 3)
  /\ walletIndex_inv new_TopayWallet
  /\ exists st' st'',
       _updateWalletIndex (lib := Fixture.lib) (Fixture.dirtyClient 3 0) new_TopayWallet
       = (Returned tt, st')
       /\ _walletIndex st' = 3
       /\ _updateWalletIndex (lib := Fixture.lib) (Fixture.dirtyClient 3 0) st'
          = (Returned tt, st'')
       /\ _walletIndex st'' = 3.
Proof.
  assert (Hinv : walletIndex_inv new_TopayWallet)
    by (vm_compute; split; discriminate).
  split; [apply dirtyClient_answersHistory|]. split; [exact Hinv|].
  destruct (updateWalletIndex_first_unused (lib := Fixture.lib) (Fixture.dirtyClient 3 0)
              (Fixture.dirtyHistory 3) new_TopayWallet
              (dirtyClient_answersHistory 3 0) Hinv)
    as [st' [Hrun [_ [_ [st'' [Hagain Hsame]]]]]].
  assert (Hthree : _walletIndex st' = 3).
  { pose proof Hrun as Hrun'. vm_compute in Hrun'. injection Hrun' as <-. reflexivity. }
  exists st', st''. split; [exact Hrun|]. split; [exact Hthree|].
  split; [exact Hagain|]. rewrite Hsame. exact Hthree.
Defined.

(** '_getAvailableInputs: should fail on an empty wallet'. *)
Lemma getAvailableInputs_spec_witness :
  walletIndex_inv new_TopayWallet
  /\ _getAvailableInputs (lib := Fixture.lib) Fixture.emptyClient new_TopayWallet
     = (Thrown (IllegalArgumentError "index"), new_TopayWallet).
Proof.
  assert (Hinv : walletIndex_inv new_TopayWallet)
    by (vm_compute; split; discriminate).
  split; [exact Hinv|].
  exact (proj1 (getAvailableInputs_spec (lib := Fixture.lib) Fixture.emptyClient
                  new_TopayWallet Hinv)).
Defined.

(** On the empty wallet of the tests the failure of [_getAvailableInputs] is
    the error of the argument check on the index: its kind is
    InvalidArgument, not InsufficientHistory. *)
Lemma getAvailableInputs_not_InsufficientHistory :
  _walletIndex (Fixture.getInitializedWallet Fixture.emptyClient) = 0
  /\ fst (_getAvailableInputs (lib := Fixture.lib) Fixture.emptyClient
            (Fixture.getInitializedWallet Fixture.emptyClient))
     = Thrown (IllegalArgumentError "index")
  /\ ~ failsWith InsufficientHistory
         (fst (_getAvailableInputs (lib := Fixture.lib) Fixture.emptyClient
                 (Fixture.getInitializedWallet Fixture.emptyClient))).
Proof.
  split; [reflexivity|]. split; [reflexivity|].
  intros [e [He Hkind]]. vm_compute in He. injection He as <-. discriminate Hkind.
Qed.

(** 'getBalance: should return the balance of the last used address'. *)
Lemma getBalance_spec_witness :
  walletIndex_inv new_TopayWallet
  /\ fst (getBalance (lib := Fixture.lib) (Fixture.dirtyClient 2 42) new_TopayWallet)
     = Returned 42.
Proof.
  assert (Hinv : walletIndex_inv new_TopayWallet)
    by (vm_compute; split; discriminate).
  split; [exact Hinv|].
  pose proof (getBalance_spec (lib := Fixture.lib) (Fixture.dirtyClient 2 42)
                new_TopayWallet Hinv) as Hspec.
  cbv zeta in Hspec.
  assert (Hscan : _updateWalletIndex (lib := Fixture.lib) (Fixture.dirtyClient 2 42)
                    new_TopayWallet
                  = (Returned tt,
                     {| _walletIndex := 2;
                        requests := [GetAddress Fixture.FIRST_ADDRESS;
                                     GetAddress Fixture.SECOND_ADDRESS;
                                     GetAddress Fixture.THIRD_ADDRESS] |}))
    by (vm_compute; reflexivity).
  rewrite Hscan in Hspec. cbn [fst snd _walletIndex requests Z.eqb] in Hspec.
  rewrite Hspec. vm_compute. reflexivity.
Defined.

(** An amount of one and a half satoshi is refused before anything else. *)
Lemma send_invalid_argument_witness :
  let st := Fixture.getInitializedWallet (Fixture.dirtyClient 1 0) in
  let amount := JsNumber (S754_finite false 3 (-1)) in
  Number_isInteger amount = false
  /\ send (lib := Fixture.lib) (Fixture.dirtyClient 1 0) Fixture.THIRD_ADDRESS
       amount JsUndefined st
     = (Thrown (IllegalArgumentError "amount"), st).
Proof.
  cbv zeta.
  assert (Hbad : Number_isInteger (JsNumber (S754_finite false 3 (-1))) = false)
    by (vm_compute; reflexivity).
  split; [exact Hbad|].
  destruct (send_invalid_argument (lib := Fixture.lib) (Fixture.dirtyClient 1 0)
              Fixture.THIRD_ADDRESS (JsNumber (S754_finite false 3 (-1))) JsUndefined
              (Fixture.getInitializedWallet (Fixture.dirtyClient 1 0))
              (or_intror (or_introl Hbad)))
    as [message [Hrun _]].
  rewrite Hrun. pose proof Hrun as Hrun'. vm_compute in Hrun'.
  injection Hrun' as <-. reflexivity.
Defined.

(** A fee of -100 satoshis is given and is not a non-negative integer, yet
    [send] does not fail on it: it scans, collects the inputs and
    broadcasts. *)
Lemma send_negative_fee_is_broadcast :
  let restClient := Fixture.dirtyClient 1 0 in
  let st := Fixture.getInitializedWallet restClient in
  let fee := JsInteger (-100) in
  let sent := send (lib := Fixture.lib) restClient Fixture.THIRD_ADDRESS
                (JsInteger 1500) fee st in
  let transaction :=
    {| tx_inputs := Fixture.TRANSACTION_INPUTS;
       tx_outputs := [ {| output_address := Fixture.THIRD_ADDRESS;
                          output_satoshis := 1500 |};
                       {| output_address := Fixture.SECOND_ADDRESS;
                          output_satoshis := 1600 |} ];
       tx_signedWith := [0] |} in
  isUndefined fee = false
  /\ JsValue_toInteger fee = -100
  /\ fst sent = Returned "some transaction id"
  /\ requests (snd sent)
     = requests st
       ++ [GetAddress Fixture.SECOND_ADDRESS; GetUtxoSet Fixture.FIRST_ADDRESS;
           SendTransaction (Fixture.serialized transaction)]
  /\ ~ failsWith InvalidArgument (fst sent).
Proof.
  cbv zeta. split; [reflexivity|]. split; [vm_compute; reflexivity|].
  split; [vm_compute; reflexivity|]. split; [vm_compute; reflexivity|].
  intros [e [He _]]. vm_compute in He. discriminate He.
Qed.

(** The transaction of 340 bytes that sends the 3000 satoshis of the tests
    to a fresh address: 340 times 11/10 is 374, the fee computed is 375. *)
Lemma calculateFee_not_exact_rate :
  let st := Fixture.getInitializedWallet (Fixture.dirtyClient 1 0) in
  let sizing :=
    {| tx_inputs := Fixture.TRANSACTION_INPUTS;
       tx_outputs := [ {| output_address := Fixture.THIRD_ADDRESS;
                          output_satoshis := 3000 |} ];
       tx_signedWith := [0] |} in
  _buildTransaction (lib := Fixture.lib) Fixture.TRANSACTION_INPUTS
    Fixture.THIRD_ADDRESS 3000 0 st = (Returned sizing, st)
  /\ String.length (Transaction_toString (Bitcoincashjs := Fixture.lib) sizing)
     = (2 * 340)%nat
  /\ _calculateFee (lib := Fixture.lib) Fixture.TRANSACTION_INPUTS
       Fixture.THIRD_ADDRESS 3000 st = (Returned 375, st)
  /\ exactFee 340 = 374
  /\ 10 * 374 = 11 * 340.
Proof.
  cbv zeta. repeat split; vm_compute; reflexivity.
Qed.

(** 'widthraw: should produce a single output to the widthraw address': of
    the 3000 satoshis, 375 are the fee of the 340 bytes of the sizing
    transaction and 2625 go to the recipient. *)
Lemma widthraw_single_output_witness :
  let restClient := Fixture.dirtyClient 1 0 in
  let st := new_TopayWallet in
  let transaction :=
    {| tx_inputs := Fixture.TRANSACTION_INPUTS;
       tx_outputs := [ {| output_address := Fixture.THIRD_ADDRESS;
                          output_satoshis := 2625 |} ];
       tx_signedWith := [hdPrivateKey_derive (Bitcoincashjs := Fixture.lib) 0] |} in
  walletIndex_inv st
  /\ Address_isValid (Bitcoincashjs := Fixture.lib) Fixture.THIRD_ADDRESS = true
  /\ Fixture.THIRD_ADDRESS <> addressAt (lib := Fixture.lib) 1
  /\ inputsAccepted (lib := Fixture.lib) (map input_of_utxo Fixture.UTXO_SET) = true
  /\ addressAccepted (lib := Fixture.lib) Fixture.THIRD_ADDRESS = true
  /\ satoshiTotal (map input_of_utxo Fixture.UTXO_SET) = 3000
  /\ widthraw (lib := Fixture.lib) restClient Fixture.THIRD_ADDRESS st
     = (Returned "some transaction id",
        {| _walletIndex := 1;
           requests := [GetAddress Fixture.FIRST_ADDRESS;
                        GetAddress Fixture.SECOND_ADDRESS;
                        GetUtxoSet Fixture.FIRST_ADDRESS;
                        SendTransaction (Fixture.serialized transaction)] |}).
Proof.
  cbv zeta.
  assert (Hinv : walletIndex_inv new_TopayWallet)
    by (vm_compute; split; discriminate).
  assert (Hvalid : Address_isValid (Bitcoincashjs := Fixture.lib) Fixture.THIRD_ADDRESS
                   = true) by (vm_compute; reflexivity).
  assert (Hother : Fixture.THIRD_ADDRESS <> addressAt (lib := Fixture.lib) 1)
    by (vm_compute; discriminate).
  assert (Hinputs : inputsAccepted (lib := Fixture.lib)
                      (map input_of_utxo Fixture.UTXO_SET) = true)
    by (vm_compute; reflexivity).
  assert (Hrecipient : addressAccepted (lib := Fixture.lib) Fixture.THIRD_ADDRESS = true)
    by (vm_compute; reflexivity).
  split; [exact Hinv|]. split; [exact Hvalid|]. split; [exact Hother|].
  split; [exact Hinputs|]. split; [exact Hrecipient|]. split; [reflexivity|].
  pose proof (widthraw_single_output (lib := Fixture.lib) (Fixture.dirtyClient 1 0)
                Fixture.THIRD_ADDRESS new_TopayWallet
                {| _walletIndex := 1;
                   requests := [GetAddress Fixture.FIRST_ADDRESS;
                                GetAddress Fixture.SECOND_ADDRESS] |}
                Fixture.UTXO_SET Hinv Hvalid
                ltac:(vm_compute; reflexivity)
                ltac:(vm_compute; discriminate)
                ltac:(vm_compute; reflexivity)
                Hother Hinputs Hrecipient
                ltac:(vm_compute; discriminate)) as Hrun.
  cbv zeta in Hrun. destruct Hrun as [Hrun _].
  rewrite Hrun; [vm_compute; reflexivity|vm_compute; discriminate].
Defined.

(** Every operation on a new wallet leaves the index within its bounds. *)
Lemma walletIndex_invariant_witness :
  walletIndex_inv new_TopayWallet
  /\ walletIndex_inv
       (snd (send (lib := Fixture.lib) (Fixture.dirtyClient 1 0) Fixture.THIRD_ADDRESS
               (JsInteger 1500) JsUndefined new_TopayWallet))
  /\ walletIndex_inv
       (snd (widthraw (lib := Fixture.lib) (Fixture.dirtyClient 1 0)
               Fixture.THIRD_ADDRESS new_TopayWallet)).
Proof.
  assert (Hinv : walletIndex_inv new_TopayWallet)
    by (vm_compute; split; discriminate).
  split; [exact Hinv|].
  pose proof (walletIndex_invariant (lib := Fixture.lib) (Fixture.dirtyClient 1 0)
                new_TopayWallet Fixture.THIRD_ADDRESS (JsInteger 1500) JsUndefined Hinv)
    as Hall.
  split; [apply Hall|apply Hall].
Defined.

(** * Further properties of the code *)

(** ** The requests of the scan and the ways it ends *)

Section ScanTrace.
Context {lib : Bitcoincashjs}.
Variable restClient : TopayRestClient.t.

Lemma scanRequests_S (from : Z) (count : nat) :
  scanRequests from (S count)
  = GetAddress (addressAt from) :: scanRequests (from + 1) count.
Proof. reflexivity. Qed.

Lemma Forall_isGetAddress_scanRequests (from : Z) (count : nat) :
  Forall isGetAddress (scanRequests from count).
Proof.
  revert from. induction count as [|count IH]; intros from.
  - constructor.
  - rewrite scanRequests_S. constructor; [eexists; reflexivity|apply IH].
Qed.

Lemma _updateWalletIndex_loop_requests (fuel : nat) :
  forall (st : State) (o : Outcome unit) (st' : State),
    0 <= _walletIndex st ->
    _updateWalletIndex_loop restClient fuel st = (o, st') ->
    exists n : nat,
      requests st' = requests st ++ scanRequests (_walletIndex st) n
      /\ Z.of_nat n <= Z.max 0 (_maxWalletIndex - _walletIndex st)
      /\ (_walletIndex st' = _walletIndex st + Z.of_nat n
          \/ ((0 < n)%nat /\ _walletIndex st' = _walletIndex st + Z.of_nat n - 1)).
Proof.
  assert (Hnone : forall st : State,
            exists n : nat,
              requests st = requests st ++ scanRequests (_walletIndex st) n
              /\ Z.of_nat n <= Z.max 0 (_maxWalletIndex - _walletIndex st)
              /\ (_walletIndex st = _walletIndex st + Z.of_nat n
                  \/ ((0 < n)%nat
                      /\ _walletIndex st = _walletIndex st + Z.of_nat n - 1))).
  { intros st. exists O. rewrite app_nil_r. split; [reflexivity|].
    split; [lia|]. left. lia. }
  induction fuel as [|fuel IH]; intros st o st' Hlo Hrun.
  - cbn in Hrun. injection Hrun as <- <-. apply Hnone.
  - cbn [_updateWalletIndex_loop] in Hrun.
    rewrite bind_get_walletIndex in Hrun.
    destruct (Z.ltb_spec (_walletIndex st) _maxWalletIndex) as [Hlt|Hge];
      [|injection Hrun as <- <-; apply Hnone].
    unfold bind at 1 in Hrun. rewrite _getAddress_eq in Hrun.
    replace (index_inRange (_walletIndex st)) with true in Hrun
      by (symmetry; apply index_inRange_true; lia).
    unfold bind at 1 in Hrun. unfold await at 1 in Hrun.
    assert (Hone : exists n : nat,
              requests st ++ [GetAddress (addressAt (_walletIndex st))]
              = requests st ++ scanRequests (_walletIndex st) n
              /\ Z.of_nat n <= Z.max 0 (_maxWalletIndex - _walletIndex st)
              /\ (_walletIndex st = _walletIndex st + Z.of_nat n
                  \/ ((0 < n)%nat
                      /\ _walletIndex st = _walletIndex st + Z.of_nat n - 1))).
    { exists 1%nat. split; [reflexivity|]. split; [lia|]. right. lia. }
    destruct (TopayRestClient.getAddress restClient (requests st)
                (addressAt (_walletIndex st))) as [data|e];
      [|injection Hrun as <- <-; exact Hone].
    destruct (List.length (transactions data) =? 0)%nat;
      [injection Hrun as <- <-; exact Hone|].
    unfold bind at 1 in Hrun. unfold set_walletIndex at 1 in Hrun.
    apply IH in Hrun; [|cbn [_walletIndex]; lia].
    cbn [_walletIndex requests] in Hrun.
    destruct Hrun as [n [Hreq [Hbound Hidx]]].
    exists (S n). rewrite scanRequests_S.
    split; [rewrite Hreq, <- app_assoc; reflexivity|].
    split; [lia|]. destruct Hidx as [Hidx|[Hpos Hidx]]; [left|right]; lia.
Qed.

(** X1. From a wallet index i0 within 0..1000 the scan asks the client for
    the histories of the addresses at the indices i0, i0+1, i0+2, ... one
    after the other, and for nothing else: n requests in all, with
    n <= 1000 - i0, so that every index asked for is below 1000; and it
    stops on index i0 + n, or on the index i0 + n - 1 of its last request.
    This holds whatever the client answers and whether the scan returns or
    throws. *)
Theorem updateWalletIndex_requests (st : State) :
  walletIndex_inv st ->
  let st' := snd (_updateWalletIndex restClient st) in
  exists n : nat,
    requests st' = requests st ++ scanRequests (_walletIndex st) n
    /\ Z.of_nat n <= _maxWalletIndex - _walletIndex st
    /\ (_walletIndex st' = _walletIndex st + Z.of_nat n
        \/ ((0 < n)%nat /\ _walletIndex st' = _walletIndex st + Z.of_nat n - 1)).
Proof.
  intros [Hlo Hhi] st'. subst st'.
  destruct (_updateWalletIndex restClient st) as [o st'] eqn:Hrun. cbn [snd].
  unfold _updateWalletIndex in Hrun. rewrite bind_get_walletIndex in Hrun.
  apply _updateWalletIndex_loop_requests in Hrun; [|exact Hlo].
  destruct Hrun as [n [Hreq [Hbound Hidx]]].
  exists n. split; [exact Hreq|]. split; [lia|exact Hidx].
Qed.

Lemma _updateWalletIndex_loop_ending (fuel : nat) :
  forall (st : State) (o : Outcome unit) (st' : State),
    walletIndex_inv st ->
    _maxWalletIndex - _walletIndex st <= Z.of_nat fuel ->
    _updateWalletIndex_loop restClient fuel st = (o, st') ->
    (o = Returned tt /\ _walletIndex st' = _maxWalletIndex)
    \/ (_walletIndex st' < _maxWalletIndex /\ stoppedOn restClient o st').
Proof.
  induction fuel as [|fuel IH]; intros st o st' [Hlo Hhi] Hfuel Hrun.
  - cbn in Hrun. injection Hrun as <- <-. left. split; [reflexivity|lia].
  - cbn [_updateWalletIndex_loop] in Hrun.
    rewrite bind_get_walletIndex in Hrun.
    destruct (Z.ltb_spec (_walletIndex st) _maxWalletIndex) as [Hlt|Hge];
      [|injection Hrun as <- <-; left; split; [reflexivity|lia]].
    unfold bind at 1 in Hrun. rewrite _getAddress_eq in Hrun.
    replace (index_inRange (_walletIndex st)) with true in Hrun
      by (symmetry; apply index_inRange_true; lia).
    unfold bind at 1 in Hrun. unfold await at 1 in Hrun.
    destruct (TopayRestClient.getAddress restClient (requests st)
                (addressAt (_walletIndex st))) as [data|e] eqn:Hanswer.
    + destruct (transactions data) as [|tx txs] eqn:Hhist.
      * cbn in Hrun. injection Hrun as <- <-. right. cbn [_walletIndex].
        split; [exact Hlt|]. exists (requests st). cbn [requests _walletIndex].
        split; [reflexivity|]. exists data. split; assumption.
      * cbn [List.length Nat.eqb] in Hrun.
        unfold bind at 1 in Hrun. unfold set_walletIndex at 1 in Hrun.
        apply IH in Hrun; [exact Hrun| |]; unfold walletIndex_inv;
          cbn [_walletIndex]; lia.
    + injection Hrun as <- <-. right. cbn [_walletIndex].
      split; [exact Hlt|]. exists (requests st). cbn [requests _walletIndex].
      split; [reflexivity|exact Hanswer].
Qed.

(** X2. From a wallet index within 0..1000 the scan ends in one of three
    ways, whatever the client.  It returns with the wallet index on 1000.
    Or it returns with the wallet index below 1000, its last request was
    for the history of the address at that index, and the client answered
    it with an empty list of transactions.  Or it throws, with the wallet
    index left below 1000 on the index it had reached: its last request was
    for the history of the address at that index and the exception is the
    one the client threw on it, unchanged. *)
Theorem updateWalletIndex_ending (st : State) :
  walletIndex_inv st ->
  let o := fst (_updateWalletIndex restClient st) in
  let st' := snd (_updateWalletIndex restClient st) in
  (o = Returned tt /\ _walletIndex st' = _maxWalletIndex)
  \/ (_walletIndex st <= _walletIndex st' < _maxWalletIndex
      /\ exists before,
           requests st' = before ++ [GetAddress (addressAt (_walletIndex st'))]
           /\ match o with
              | Returned _ =>
                  exists data,
                    TopayRestClient.getAddress restClient before
                      (addressAt (_walletIndex st')) = Returned data
                    /\ transactions data = []
              | Thrown e =>
                  TopayRestClient.getAddress restClient before
                    (addressAt (_walletIndex st')) = Thrown e
              end).
Proof.
  intros Hinv o st'. subst o st'.
  destruct (_updateWalletIndex restClient st) as [o st'] eqn:Hrun. cbn [fst snd].
  pose proof (_updateWalletIndex_frame restClient st o st' Hrun) as [Hle _].
  unfold _updateWalletIndex in Hrun. rewrite bind_get_walletIndex in Hrun.
  apply _updateWalletIndex_loop_ending in Hrun; [|exact Hinv|destruct Hinv; lia].
  destruct Hrun as [Hcap|[Hbelow Hstop]]; [left; exact Hcap|right].
  split; [lia|exact Hstop].
Qed.

End ScanTrace.

(** ** The operations that only read *)

Section ReadOnly.
Context {lib : Bitcoincashjs}.
Variable restClient : TopayRestClient.t.

Lemma _getAddress_state (index : Z) (st : State) :
  snd (_getAddress index st) = st.
Proof. rewrite _getAddress_eq. destruct (index_inRange index); reflexivity. Qed.

(** X3. Against a backend that answers from a history function, from a
    wallet index within 0..1000, [getReceiveAddress] never throws: it
    returns the address at the first index from the wallet index on whose
    address has no history (the address at index 1000 when there is none
    below 1000, whatever the history of that address), leaves the wallet
    index on that index, and has asked the client for address histories
    only. *)
Theorem getReceiveAddress_first_unused (history : string -> list string)
    (st : State) :
  answersHistory restClient history ->
  walletIndex_inv st ->
  exists r st',
    getReceiveAddress restClient st = (Returned (addressAt r), st')
    /\ _walletIndex st' = r
    /\ firstUnusedFrom history (_walletIndex st) r
    /\ exists l, requests st' = requests st ++ l /\ Forall isGetAddress l.
Proof.
  intros Hclient Hinv.
  destruct (_updateWalletIndex_loop_history restClient history
              (Z.to_nat (_maxWalletIndex - _walletIndex st)) st Hclient Hinv)
    as [r [l [Hrun Hfirst]]]; [destruct Hinv; lia|].
  assert (Hscan : _updateWalletIndex restClient st
                  = (Returned tt, {| _walletIndex := r; requests := requests st ++ l |}))
    by exact Hrun.
  exists r. eexists. unfold getReceiveAddress.
  rewrite (bind_Returned _ _ _ _ _ Hscan). cbn beta.
  rewrite bind_get_walletIndex, _getAddress_eq. cbn [_walletIndex].
  replace (index_inRange r) with true
    by (symmetry; apply index_inRange_true; destruct Hinv, Hfirst; lia).
  split; [reflexivity|]. cbn [_walletIndex requests].
  split; [reflexivity|]. split; [exact Hfirst|].
  apply _updateWalletIndex_frame in Hscan. cbn [requests] in Hscan.
  destruct Hscan as [_ [_ [l' [Heq Hall]]]]. exists l'. split; assumption.
Qed.

(** X4. Whatever the state and the client, [initialize] and
    [getReceiveAddress] ask the client for address histories only, and
    [getBalance] for address histories followed by at most one balance: none
    of them asks for unspent outputs or broadcasts a transaction. *)
Theorem reading_operations_requests (st : State) :
  (exists l,
     requests (snd (initialize restClient st)) = requests st ++ l
     /\ Forall isGetAddress l)
  /\ (exists l,
        requests (snd (getReceiveAddress restClient st)) = requests st ++ l
        /\ Forall isGetAddress l)
  /\ (exists l tail,
        requests (snd (getBalance restClient st)) = requests st ++ l ++ tail
        /\ Forall isGetAddress l
        /\ (tail = [] \/ exists a, tail = [GetBalance a])).
Proof.
  destruct (_updateWalletIndex restClient st) as [o st1] eqn:Hscan.
  destruct (_updateWalletIndex_frame restClient st o st1 Hscan)
    as [_ [_ [l [Hreq Hall]]]].
  split; [|split].
  - exists l. unfold initialize. rewrite Hscan. split; assumption.
  - exists l. unfold getReceiveAddress, bind at 1. rewrite Hscan.
    destruct o as [[]|e]; cbn [snd]; [|split; assumption].
    rewrite bind_get_walletIndex, _getAddress_state. split; assumption.
  - exists l. unfold getBalance, bind at 1. rewrite Hscan.
    destruct o as [[]|e]; cbn [snd].
    + rewrite bind_get_walletIndex.
      destruct (_walletIndex st1 =? 0).
      * exists []. rewrite app_nil_r. cbn. tauto.
      * unfold bind at 1. rewrite _getAddress_eq.
        destruct (index_inRange (_walletIndex st1 - 1)).
        -- eexists. unfold bind, await, ret.
           destruct (TopayRestClient.getBalance restClient (requests st1)
                       (addressAt (_walletIndex st1 - 1)));
             cbn [snd requests]; rewrite Hreq, <- app_assoc;
             (split; [reflexivity|]); (split; [exact Hall|]);
             right; eexists; reflexivity.
        -- exists []. rewrite app_nil_r. cbn. tauto.
    + exists []. rewrite app_nil_r. tauto.
Qed.

End ReadOnly.

(** ** Spending: [send] and [widthraw] *)

Section Spending.
Context {lib : Bitcoincashjs}.
Variable restClient : TopayRestClient.t.

Lemma _calculateFee_state (inputs : list Input) (recipient : string) (amount : Z)
    (st : State) :
  snd (_calculateFee inputs recipient amount st) = st.
Proof. rewrite _calculateFee_eq. reflexivity. Qed.

Lemma stateless_send_amountAndFee (recipient : string) (amount fee : JsValue)
    (inputs : list Input) :
  stateless (send_amountAndFee recipient amount fee inputs).
Proof.
  intros st. unfold send_amountAndFee, send_fee, bind.
  destruct (isUndefined fee); [|reflexivity].
  pose proof (_calculateFee_state inputs recipient (JsValue_toInteger amount) st) as H.
  destruct (_calculateFee inputs recipient (JsValue_toInteger amount) st) as [[f|e] st'];
    exact H.
Qed.

Lemma stateless_widthraw_amountAndFee (recipient : string) (inputs : list Input) :
  stateless (widthraw_amountAndFee recipient inputs).
Proof.
  intros st. unfold widthraw_amountAndFee, bind. cbv zeta.
  pose proof (_calculateFee_state inputs recipient (inputs_balance inputs) st) as H.
  destruct (_calculateFee inputs recipient (inputs_balance inputs) st) as [[f|e] st'];
    exact H.
Qed.

(** Past its checks [send] is [spend] with its amount and fee. *)
Lemma send_spend (recipient : string) (amount fee : JsValue) (st : State) :
  send_arguments_ok recipient amount fee = true ->
  send restClient recipient amount fee st
  = spend restClient recipient (send_amountAndFee recipient amount fee) st.
Proof.
  intros Hok. rewrite (send_checks_pass restClient recipient amount fee st Hok).
  unfold spend, send_amountAndFee, send_fee, bind.
  destruct (_updateWalletIndex restClient st) as [[[]|e] st1]; [|reflexivity].
  destruct (_getAvailableInputs restClient st1) as [[inputs|e] st2]; [|reflexivity].
  destruct (isUndefined fee).
  - destruct (_calculateFee inputs recipient (JsValue_toInteger amount) st2)
      as [[f|e] st3]; reflexivity.
  - reflexivity.
Qed.

Lemma widthraw_spend (recipient : string) (st : State) :
  Address_isValid recipient = true ->
  widthraw restClient recipient st
  = spend restClient recipient (widthraw_amountAndFee recipient) st.
Proof.
  intros Hvalid. unfold widthraw, spend, widthraw_amountAndFee. rewrite Hvalid.
  unfold checkArgument, bind, ret. cbv zeta.
  destruct (_updateWalletIndex restClient st) as [[[]|e] st1]; [|reflexivity].
  destruct (_getAvailableInputs restClient st1) as [[inputs|e] st2]; [|reflexivity].
  destruct (_calculateFee inputs recipient (inputs_balance inputs) st2)
    as [[f|e] st3]; reflexivity.
Qed.

(** The requests of [spend]. *)
Lemma spend_requests (recipient : string) (amountAndFee : list Input -> M (Z * Z))
    (st : State) :
  (forall inputs, stateless (amountAndFee inputs)) ->
  exists l tail,
    requests (snd (spend restClient recipient amountAndFee st))
    = requests st ++ l ++ tail
    /\ Forall isGetAddress l
    /\ spendTail restClient (requests st ++ l) tail
         (fst (spend restClient recipient amountAndFee st)).
Proof.
  intros Hstateless.
  destruct (_updateWalletIndex restClient st) as [o st1] eqn:Hscan.
  destruct (_updateWalletIndex_frame restClient st o st1 Hscan)
    as [_ [_ [l [Hreq Hall]]]].
  exists l.
  destruct (spend restClient recipient amountAndFee st) as [o' st'] eqn:Hrun.
  cbn [fst snd].
  enough (Hfrom : exists tail,
            requests st' = requests st1 ++ tail
            /\ spendTail restClient (requests st1) tail o').
  { destruct Hfrom as [tail [Heq Htail]]. exists tail.
    rewrite Heq, Hreq, <- app_assoc. rewrite Hreq in Htail. auto. }
  unfold spend, bind at 1 in Hrun. rewrite Hscan in Hrun.
  assert (Hnone : exists tail,
            requests st1 = requests st1 ++ tail
            /\ spendTail restClient (requests st1) tail o').
  { exists []. rewrite app_nil_r. split; [reflexivity|]. left. reflexivity. }
  destruct o as [[]|e]; [|injection Hrun as <- <-; exact Hnone].
  unfold bind at 1 in Hrun. rewrite _getAvailableInputs_eq in Hrun.
  destruct (index_inRange (_walletIndex st1 - 1));
    [|injection Hrun as <- <-; exact Hnone].
  set (a := addressAt (_walletIndex st1 - 1)) in *.
  set (st2 := {| _walletIndex := _walletIndex st1;
                 requests := requests st1 ++ [GetUtxoSet a] |}) in *.
  assert (Hquery : exists tail,
            requests st2 = requests st1 ++ tail
            /\ spendTail restClient (requests st1) tail o').
  { exists [GetUtxoSet a]. split; [reflexivity|].
    right. left. exists a. reflexivity. }
  destruct (TopayRestClient.getUtxoSet restClient (requests st1) a) as [utxoSet|e];
    cbn [Outcome_map] in Hrun; [|injection Hrun as <- <-; exact Hquery].
  unfold bind at 1 in Hrun.
  pose proof (Hstateless (map input_of_utxo utxoSet) st2) as Hfee.
  destruct (amountAndFee (map input_of_utxo utxoSet) st2) as [[af|e] st3];
    cbn [snd] in Hfee; subst st3; [|injection Hrun as <- <-; exact Hquery].
  unfold bind at 1 in Hrun.
  pose proof (_buildTransaction_state (map input_of_utxo utxoSet) recipient
                (fst af) (snd af) st2) as Hbuild.
  destruct (_buildTransaction (map input_of_utxo utxoSet) recipient (fst af) (snd af) st2)
    as [[transaction|e] st3]; cbn [snd] in Hbuild; subst st3;
    [|injection Hrun as <- <-; exact Hquery].
  clear Hnone Hquery.
  exists [GetUtxoSet a; SendTransaction (Transaction_toString transaction)].
  unfold bind, await, ret in Hrun. cbn [requests _walletIndex st2] in Hrun.
  destruct (TopayRestClient.sendTransaction restClient
              (requests st1 ++ [GetUtxoSet a]) (Transaction_toString transaction))
    eqn:Hsent; injection Hrun as <- <-; cbn [requests];
    (split; [rewrite <- app_assoc; reflexivity|]);
    right; right; exists a, (Transaction_toString transaction);
    (split; [reflexivity|]); symmetry; exact Hsent.
Qed.

(** X5. Whatever the arguments, the state and the client, the requests
    [send] and [widthraw] add are address-history requests (the scan),
    followed by nothing, or by the query of one UTXO set, or by that query
    and then exactly one broadcast, which is the last request and whose
    answer (the transaction id, or the exception of the client) is the
    outcome.  Neither asks for a balance, broadcasts twice, or broadcasts
    before the inputs were collected. *)
Theorem spending_operations_requests (recipient : string) (amount fee : JsValue)
    (st : State) :
  (exists l tail,
     requests (snd (send restClient recipient amount fee st)) = requests st ++ l ++ tail
     /\ Forall isGetAddress l
     /\ spendTail restClient (requests st ++ l) tail
          (fst (send restClient recipient amount fee st)))
  /\ (exists l tail,
        requests (snd (widthraw restClient recipient st)) = requests st ++ l ++ tail
        /\ Forall isGetAddress l
        /\ spendTail restClient (requests st ++ l) tail
             (fst (widthraw restClient recipient st))).
Proof.
  assert (Hnothing : forall (message : string),
            exists l tail,
              requests (snd (@Thrown string (IllegalArgumentError message), st))
              = requests st ++ l ++ tail
              /\ Forall isGetAddress l
              /\ spendTail restClient (requests st ++ l) tail
                   (fst (@Thrown string (IllegalArgumentError message), st))).
  { intros message. exists [], []. cbn. rewrite app_nil_r.
    split; [reflexivity|]. split; [constructor|]. left. reflexivity. }
  split.
  - destruct (send_arguments_ok recipient amount fee) eqn:Hok.
    + rewrite (send_spend recipient amount fee st Hok).
      apply spend_requests. intros inputs. apply stateless_send_amountAndFee.
    + unfold send_arguments_ok in Hok. unfold send.
      destruct (Address_isValid recipient); [|apply (Hnothing "recipient")].
      destruct (Number_isInteger amount); [|apply (Hnothing "amount")].
      cbn [andb] in Hok. rewrite Hok. apply (Hnothing "fee").
  - destruct (Address_isValid recipient) eqn:Hvalid.
    + rewrite (widthraw_spend recipient st Hvalid).
      apply spend_requests. intros inputs. apply stateless_widthraw_amountAndFee.
    + unfold widthraw. rewrite Hvalid. apply (Hnothing "recipient").
Qed.

(** Once the scan has returned on a used wallet and the inputs are
    collected, [spend] goes on from the state after the UTXO query. *)
Lemma spend_collected (recipient : string) (amountAndFee : list Input -> M (Z * Z))
    (st st1 : State) (utxoSet : list Utxo) :
  _updateWalletIndex restClient st = (Returned tt, st1) ->
  1 <= _walletIndex st1 <= _maxWalletIndex ->
  TopayRestClient.getUtxoSet restClient (requests st1)
    (addressAt (_walletIndex st1 - 1)) = Returned utxoSet ->
  spend restClient recipient amountAndFee st
  = (af <- amountAndFee (map input_of_utxo utxoSet) ;;
     transaction <- _buildTransaction (map input_of_utxo utxoSet) recipient
                      (fst af) (snd af) ;;
     transactionId <- await (TopayRestClient.sendTransaction restClient)
                        SendTransaction (Transaction_toString transaction) ;;
     ret transactionId)
      {| _walletIndex := _walletIndex st1;
         requests := requests st1 ++ [GetUtxoSet (addressAt (_walletIndex st1 - 1))] |}.
Proof.
  intros Hscan Hidx Hutxo. unfold spend.
  rewrite (bind_Returned _ _ _ _ _ Hscan). cbn beta.
  assert (Hinputs : _getAvailableInputs restClient st1
                    = (Returned (map input_of_utxo utxoSet),
                       {| _walletIndex := _walletIndex st1;
                          requests := requests st1
                                      ++ [GetUtxoSet (addressAt (_walletIndex st1 - 1))] |})).
  { rewrite _getAvailableInputs_eq.
    replace (index_inRange (_walletIndex st1 - 1)) with true
      by (symmetry; apply index_inRange_true; lia).
    rewrite Hutxo. reflexivity. }
  rewrite (bind_Returned _ _ _ _ _ Hinputs). reflexivity.
Qed.

Lemma scanned_index (st st1 : State) (o : Outcome unit) :
  walletIndex_inv st ->
  _updateWalletIndex restClient st = (o, st1) ->
  _walletIndex st1 <= _maxWalletIndex.
Proof.
  intros Hinv Hscan. pose proof (_updateWalletIndex_inv restClient st Hinv) as H.
  rewrite Hscan in H. apply H.
Qed.


(** X7. For arguments that pass the checks, when the re-scan returns on a
    wallet index of at least 1 and the client returns the UTXO set of the
    last used address, [send] throws the [TopayError] 'Cannot create
    transaction: Insufficient funds.' and stops right after the UTXO query,
    without a broadcast, in each of these cases: the inputs do not cover
    the amount plus the fee it goes on with; or no fee is given and the
    inputs do not cover the amount alone (the estimate itself fails). *)
Theorem send_insufficient_funds (recipient : string) (amount fee : JsValue)
    (st st1 : State) (utxoSet : list Utxo) :
  walletIndex_inv st ->
  send_arguments_ok recipient amount fee = true ->
  _updateWalletIndex restClient st = (Returned tt, st1) ->
  1 <= _walletIndex st1 ->
  TopayRestClient.getUtxoSet restClient (requests st1)
    (addressAt (_walletIndex st1 - 1)) = Returned utxoSet ->
  let inputs := map input_of_utxo utxoSet in
  let balance := inputs_balance inputs in
  let st2 := {| _walletIndex := _walletIndex st1;
                requests := requests st1
                            ++ [GetUtxoSet (addressAt (_walletIndex st1 - 1))] |} in
  let insufficient := TopayError "Cannot create transaction" "Insufficient funds." in
  (forall f,
     send_fee fee inputs recipient (JsValue_toInteger amount) st2 = (Returned f, st2) ->
     balance < JsValue_toInteger amount + f ->
     send restClient recipient amount fee st = (Thrown insufficient, st2))
  /\ (isUndefined fee = true ->
      balance < JsValue_toInteger amount ->
      send restClient recipient amount fee st = (Thrown insufficient, st2)).
Proof.
  intros Hinv Hok Hscan Hused Hutxo inputs balance st2 insufficient.
  pose proof (scanned_index st st1 _ Hinv Hscan) as Hhi.
  rewrite (send_spend recipient amount fee st Hok).
  rewrite (spend_collected recipient _ st st1 utxoSet Hscan ltac:(lia) Hutxo).
  fold inputs st2. split.
  - intros f Hfee Hshort.
    assert (Haf : send_amountAndFee recipient amount fee inputs st2
                  = (Returned (JsValue_toInteger amount, f), st2)).
    { unfold send_amountAndFee. rewrite (bind_Returned _ _ _ _ _ Hfee). reflexivity. }
    rewrite (bind_Returned _ _ _ _ _ Haf). cbn beta. cbn [fst snd].
    apply bind_Thrown. rewrite _buildTransaction_eq. fold balance.
    destruct (Z.ltb_spec balance (JsValue_toInteger amount + f)); [reflexivity|lia].
  - intros Hnone Hshort. apply bind_Thrown.
    unfold send_amountAndFee, send_fee. rewrite Hnone. apply bind_Thrown.
    rewrite _calculateFee_eq, _buildTransaction_eq. fold balance.
    destruct (Z.ltb_spec balance (JsValue_toInteger amount + 0)); [reflexivity|lia].
Qed.

(** X8. On a wallet without history, that is when the re-scan returns with
    the wallet index on 0, neither [send] (with arguments that pass its
    checks) nor [widthraw] (with a valid recipient) can spend: each throws
    the error of the argument check on the derivation index, in the state
    the scan left, so that no UTXO set is asked for and nothing is
    broadcast. *)
Theorem spending_without_history (recipient : string) (amount fee : JsValue)
    (st st1 : State) :
  _updateWalletIndex restClient st = (Returned tt, st1) ->
  _walletIndex st1 = 0 ->
  (send_arguments_ok recipient amount fee = true ->
   send restClient recipient amount fee st
   = (Thrown (IllegalArgumentError "index"), st1))
  /\ (Address_isValid recipient = true ->
      widthraw restClient recipient st
      = (Thrown (IllegalArgumentError "index"), st1)).
Proof.
  intros Hscan Hzero.
  assert (Hspend : forall amountAndFee,
            spend restClient recipient amountAndFee st
            = (Thrown (IllegalArgumentError "index"), st1)).
  { intros amountAndFee. unfold spend.
    rewrite (bind_Returned _ _ _ _ _ Hscan). cbn beta.
    apply bind_Thrown. rewrite _getAvailableInputs_eq, Hzero. reflexivity. }
  split.
  - intros Hok. rewrite (send_spend recipient amount fee st Hok). apply Hspend.
  - intros Hvalid. rewrite (widthraw_spend recipient st Hvalid). apply Hspend.
Qed.

End Spending.

(** ** The sign of the fee *)






Section FeeSign.
Context {lib : Bitcoincashjs}.


End FeeSign.

(** ** Who is paid, and who signs *)

Section Payees.
Context {lib : Bitcoincashjs}.


End Payees.

(** ** The exceptions a caller can see *)

Section ThrowsOnly.
Context {lib : Bitcoincashjs}.
Variable restClient : TopayRestClient.t.
Variables P Q : Exception -> Prop.
Hypothesis Hclient : clientThrows P restClient.
Hypothesis HPQ : forall e, P e -> Q e.
Hypothesis Hargument : forall message, Q (IllegalArgumentError message).
Hypothesis Hbitcore : forall name, Q (BitcoreError name).

Lemma throwsOnly_ret {A : Type} (a : A) : throwsOnly Q (ret a).
Proof. intros st e st' H. discriminate H. Qed.

Lemma throwsOnly_bind {A B : Type} (m : M A) (k : A -> M B) :
  throwsOnly Q m -> (forall a, throwsOnly Q (k a)) -> throwsOnly Q (bind m k).
Proof.
  intros Hm Hk st e st' Hrun. unfold bind in Hrun.
  destruct (m st) as [[a|e0] st1] eqn:Hfirst.
  - exact (Hk a st1 e st' Hrun).
  - injection Hrun as <- <-. exact (Hm st e0 st1 Hfirst).
Qed.

Lemma throwsOnly_checkArgument (condition : bool) (message : string) :
  throwsOnly Q (checkArgument condition message).
Proof.
  intros st e st' Hrun. unfold checkArgument in Hrun.
  destruct condition; [discriminate Hrun|].
  injection Hrun as <- _. apply Hargument.
Qed.

Lemma throwsOnly_get_walletIndex : throwsOnly Q get_walletIndex.
Proof. intros st e st' H. discriminate H. Qed.

Lemma throwsOnly_set_walletIndex (i : Z) : throwsOnly Q (set_walletIndex i).
Proof. intros st e st' H. discriminate H. Qed.

Lemma throwsOnly_await {A : Type} (method : list Request -> string -> Outcome A)
    (req : string -> Request) (arg : string) :
  (forall log a e, method log a = Thrown e -> P e) ->
  throwsOnly Q (await method req arg).
Proof.
  intros Hmethod st e st' Hrun. unfold await in Hrun.
  injection Hrun as Hrun _. apply HPQ. exact (Hmethod _ _ _ Hrun).
Qed.

(** The builder throws for a lack of funds, for the index, or what the
    transaction builder of bitcoincashjs throws. *)
Lemma throwsOnly__buildTransaction (inputs : list Input) (recipient : string)
    (amount fee : Z) :
  (inputs_balance inputs < amount + fee -> Q insufficientFunds) ->
  throwsOnly Q (_buildTransaction inputs recipient amount fee).
Proof.
  intros Hfunds st e st' Hrun.
  destruct (_buildTransaction_Thrown _ _ _ _ _ _ _ Hrun)
    as [[-> Hlt]|[_ [->|[name ->]]]].
  - exact (Hfunds Hlt).
  - apply Hargument.
  - apply Hbitcore.
Qed.

#[local] Hint Resolve throwsOnly_ret throwsOnly_checkArgument
  throwsOnly_get_walletIndex throwsOnly_set_walletIndex : wallet.

(** Through the [bind]s of a method, one computation at a time. *)
Ltac throws_steps :=
  repeat first [ solve [auto with wallet] | apply throwsOnly_bind; [|intros ?] ].

Lemma throwsOnly__getAddress (index : Z) : throwsOnly Q (_getAddress index).
Proof. unfold _getAddress, _getPublicKey. throws_steps. Qed.

#[local] Hint Resolve throwsOnly__getAddress : wallet.

Lemma throwsOnly__updateWalletIndex : throwsOnly Q (_updateWalletIndex restClient).
Proof.
  destruct Hclient as [Haddress _].
  assert (Hloop : forall fuel, throwsOnly Q (_updateWalletIndex_loop restClient fuel)).
  { induction fuel as [|fuel IH]; cbn [_updateWalletIndex_loop]; [throws_steps|].
    apply throwsOnly_bind; [throws_steps|intros walletIndex].
    destruct (walletIndex <? _maxWalletIndex); [|throws_steps].
    apply throwsOnly_bind; [throws_steps|intros a].
    apply throwsOnly_bind; [apply throwsOnly_await; exact Haddress|intros data].
    destruct (List.length (transactions data) =? 0)%nat; [throws_steps|].
    apply throwsOnly_bind; [throws_steps|intros _; exact IH]. }
  unfold _updateWalletIndex.
  apply throwsOnly_bind; [throws_steps|intros walletIndex; apply Hloop].
Qed.

Lemma throwsOnly__getAvailableInputs : throwsOnly Q (_getAvailableInputs restClient).
Proof.
  destruct Hclient as [_ [_ [Hutxo _]]]. unfold _getAvailableInputs.
  apply throwsOnly_bind; [throws_steps|intros walletIndex].
  apply throwsOnly_bind; [throws_steps|intros a].
  apply throwsOnly_bind; [apply throwsOnly_await; exact Hutxo|intros ?; throws_steps].
Qed.

Lemma throwsOnly__calculateFee (inputs : list Input) (recipient : string)
    (amount : Z) :
  (inputs_balance inputs < amount -> Q insufficientFunds) ->
  throwsOnly Q (_calculateFee inputs recipient amount).
Proof.
  intros Hfunds. unfold _calculateFee.
  apply throwsOnly_bind; [|intros ?; throws_steps].
  apply throwsOnly__buildTransaction. intros Hlt. apply Hfunds. lia.
Qed.

Lemma throwsOnly_getBalance_query (a : string) :
  throwsOnly Q
    (balance <- await (TopayRestClient.getBalance restClient) GetBalance a ;;
     ret balance).
Proof.
  destruct Hclient as [_ [Hbalance _]].
  apply throwsOnly_bind; [apply throwsOnly_await; exact Hbalance|intros ?; throws_steps].
Qed.

Lemma throwsOnly_broadcast (rawtx : string) :
  throwsOnly Q
    (transactionId <- await (TopayRestClient.sendTransaction restClient)
                        SendTransaction rawtx ;;
     ret transactionId).
Proof.
  destruct Hclient as [_ [_ [_ Hsend]]].
  apply throwsOnly_bind; [apply throwsOnly_await; exact Hsend|intros ?; throws_steps].
Qed.

#[local] Hint Resolve throwsOnly__updateWalletIndex throwsOnly__getAvailableInputs
  throwsOnly_getBalance_query throwsOnly_broadcast : wallet.

Lemma throwsOnly_reading :
  throwsOnly Q (initialize restClient)
  /\ throwsOnly Q (getBalance restClient)
  /\ throwsOnly Q (getReceiveAddress restClient).
Proof.
  split; [apply throwsOnly__updateWalletIndex|]. split.
  - unfold getBalance.
    apply throwsOnly_bind; [throws_steps|intros _].
    apply throwsOnly_bind; [throws_steps|intros walletIndex].
    destruct (walletIndex =? 0); throws_steps.
  - unfold getReceiveAddress. throws_steps.
Qed.

Lemma throwsOnly_send (recipient : string) (amount fee : JsValue) :
  Q insufficientFunds ->
  throwsOnly Q (send restClient recipient amount fee).
Proof.
  intros Hfunds. unfold send.
  do 5 (apply throwsOnly_bind; [auto with wallet|intros ?]).
  apply throwsOnly_bind;
    [destruct (isUndefined fee);
     [apply throwsOnly__calculateFee; auto|apply throwsOnly_ret]|intros ?].
  apply throwsOnly_bind; [apply throwsOnly__buildTransaction; auto|intros ?].
  throws_steps.
Qed.

(** In [widthraw] the funds never lack: the estimate is asked for the
    whole balance, and the amount sent is the balance less the fee. *)
Lemma throwsOnly_widthraw (recipient : string) :
  throwsOnly Q (widthraw restClient recipient).
Proof.
  unfold widthraw.
  do 3 (apply throwsOnly_bind; [auto with wallet|intros ?]).
  cbv zeta.
  apply throwsOnly_bind; [apply throwsOnly__calculateFee; lia|intros fee].
  apply throwsOnly_bind; [apply throwsOnly__buildTransaction; lia|intros ?].
  throws_steps.
Qed.

End ThrowsOnly.

Section Taxonomy.
Context {lib : Bitcoincashjs}.
Variable restClient : TopayRestClient.t.
Variable P : Exception -> Prop.

(** From a wallet index within its bounds the scan throws only what the
    client throws. *)
Lemma _updateWalletIndex_Thrown (st st' : State) (e : Exception) :
  clientThrows P restClient ->
  walletIndex_inv st ->
  _updateWalletIndex restClient st = (Thrown e, st') ->
  P e.
Proof.
  intros [Haddress _] Hinv Hscan.
  destruct (_updateWalletIndex_loop_ending restClient
              (Z.to_nat (_maxWalletIndex - _walletIndex st)) st (Thrown e) st' Hinv)
    as [[Hreturned _]|[_ [before [_ Hanswer]]]];
    [destruct Hinv; lia|exact Hscan|discriminate Hreturned|].
  exact (Haddress _ _ _ Hanswer).
Qed.

(** X11. When every exception the client throws satisfies P: an operation
    that only reads ([initialize], [getBalance], [getReceiveAddress]), from
    a wallet index within its bounds, throws only exceptions that satisfy P,
    those of the client; and every exception [send] throws, from any state
    and with any arguments, satisfies P or is the error of a failed argument
    check, the [TopayError] 'Cannot create transaction: Insufficient
    funds.', or an error of the transaction builder of bitcoincashjs. *)
Theorem wallet_exceptions :
  clientThrows P restClient ->
  (forall st e st',
     walletIndex_inv st ->
     initialize restClient st = (Thrown e, st')
     \/ getBalance restClient st = (Thrown e, st')
     \/ getReceiveAddress restClient st = (Thrown e, st') ->
     P e)
  /\ (forall recipient amount fee,
        throwsOnly (spendingError P) (send restClient recipient amount fee)).
Proof.
  intros Hclient. split.
  - intros st e st' Hinv Hthrown.
    pose proof (_updateWalletIndex_inv restClient st Hinv) as Hinv1.
    destruct (_updateWalletIndex restClient st) as [[[]|e0] st1] eqn:Hscan;
      cbn [snd] in Hinv1.
    + destruct Hthrown as [Hrun|[Hrun|Hrun]].
      * unfold initialize in Hrun. rewrite Hscan in Hrun. discriminate Hrun.
      * unfold getBalance in Hrun.
        rewrite (bind_Returned _ _ _ _ _ Hscan), bind_get_walletIndex in Hrun.
        destruct (Z.eqb_spec (_walletIndex st1) 0) as [Hzero|Hused];
          [discriminate Hrun|].
        unfold bind at 1 in Hrun. rewrite _getAddress_eq in Hrun.
        replace (index_inRange (_walletIndex st1 - 1)) with true in Hrun
          by (symmetry; apply index_inRange_true; destruct Hinv1; lia).
        unfold bind, await, ret in Hrun.
        destruct (TopayRestClient.getBalance restClient (requests st1)
                    (addressAt (_walletIndex st1 - 1))) as [balance|e1] eqn:Hanswer;
          [discriminate Hrun|].
        injection Hrun as <- _. destruct Hclient as [_ [Hbalance _]].
        exact (Hbalance _ _ _ Hanswer).
      * unfold getReceiveAddress in Hrun.
        rewrite (bind_Returned _ _ _ _ _ Hscan), bind_get_walletIndex in Hrun.
        rewrite _getAddress_eq in Hrun.
        replace (index_inRange (_walletIndex st1)) with true in Hrun
          by (symmetry; apply index_inRange_true; exact Hinv1).
        discriminate Hrun.
    + assert (He : e = e0).
      { destruct Hthrown as [Hrun|[Hrun|Hrun]].
        - unfold initialize in Hrun. rewrite Hscan in Hrun.
          injection Hrun as <- _. reflexivity.
        - unfold getBalance in Hrun. rewrite (bind_Thrown _ _ _ _ _ Hscan) in Hrun.
          injection Hrun as <- _. reflexivity.
        - unfold getReceiveAddress in Hrun.
          rewrite (bind_Thrown _ _ _ _ _ Hscan) in Hrun.
          injection Hrun as <- _. reflexivity. }
      subst e0. exact (_updateWalletIndex_Thrown st st1 e Hclient Hinv Hscan).
  - intros recipient amount fee.
    apply (throwsOnly_send restClient P (spendingError P) Hclient).
    + intros e He. left. exact He.
    + intros message. right. left. eexists. reflexivity.
    + intros name. right. right. right. eexists. reflexivity.
    + right. right. left. reflexivity.
Qed.

(** X12. [widthraw] never throws for a lack of funds of its own: when every
    exception the client throws satisfies P, every exception [widthraw]
    throws satisfies P or is the error of a failed argument check (the
    recipient, or the derivation index on a wallet without history) or an
    error of the transaction builder of bitcoincashjs (so for a fee that
    exceeds the balance).  The check of funds of [_buildTransaction] cannot
    fail in it, since the fee is estimated for the whole balance and the
    amount sent is the balance less the fee: unless the client throws it,
    [widthraw] never throws the error 'Cannot create transaction:
    Insufficient funds.'. *)
Theorem widthraw_exceptions (recipient : string) :
  clientThrows P restClient ->
  throwsOnly (withdrawalError P) (widthraw restClient recipient)
  /\ (~ P insufficientFunds ->
      forall st st',
        widthraw restClient recipient st <> (Thrown insufficientFunds, st')).
Proof.
  intros Hclient.
  assert (Honly : throwsOnly (withdrawalError P) (widthraw restClient recipient)).
  { apply (throwsOnly_widthraw restClient P _ Hclient).
    - intros e He. left. exact He.
    - intros message. right. left. eexists. reflexivity.
    - intros name. right. right. eexists. reflexivity. }
  split; [exact Honly|].
  intros HP st st' Hrun.
  destruct (Honly st _ st' Hrun) as [He|[[message He]|[name He]]];
    [exact (HP He)|discriminate He|discriminate He].
Qed.

End Taxonomy.

(** ** The REST client *)

Section RestClient.

Lemma stripTrailingSlash_append_slash (b : string) :
  RestClientJs.stripTrailingSlash (b ++ "/") = b.
Proof.
  induction b as [|c b IH]; [reflexivity|].
  cbn [String.append RestClientJs.stripTrailingSlash].
  destruct b as [|c' b'].
  - reflexivity.
  - cbn [String.append] in *. rewrite IH. reflexivity.
Qed.

Lemma stripTrailingSlash_no_slash (b : string) :
  RestClientJs.endsWithSlash b = false -> RestClientJs.stripTrailingSlash b = b.
Proof.
  induction b as [|c b IH]; [reflexivity|].
  cbn [RestClientJs.endsWithSlash RestClientJs.stripTrailingSlash].
  destruct b as [|c' b'].
  - intros Hc. rewrite Hc. reflexivity.
  - intros Hb. rewrite (IH Hb). reflexivity.
Qed.

(** X13. The constructor of the REST client removes one slash at the end of
    the base URL: for a base URL b that does not end with a slash, the
    clients built from b and from b followed by a slash are the same
    object, with base URL b, and each asks for the history of an address
    at the URL b/addr/<address>. *)
Theorem restClient_trailing_slash (b : string) (axios : RestClientJs.Axios)
    (log : list Request) (address : string) :
  RestClientJs.endsWithSlash b = false ->
  RestClientJs.new_TopayRestClient (b ++ "/") = RestClientJs.new_TopayRestClient b
  /\ RestClientJs.baseUrl (RestClientJs.new_TopayRestClient b) = b
  /\ RestClientJs.getAddress (RestClientJs.new_TopayRestClient (b ++ "/")) axios
       log address
     = RestClientJs._unwrap
         (RestClientJs.get_addr axios log (b ++ "/addr/" ++ address)%string).
Proof.
  intros Hb. unfold RestClientJs.new_TopayRestClient, RestClientJs.getAddress,
    RestClientJs._get. cbn [RestClientJs.baseUrl].
  rewrite stripTrailingSlash_append_slash, (stripTrailingSlash_no_slash b Hb).
  repeat split.
Qed.

Lemma string_append_assoc (a b c : string) :
  ((a ++ b) ++ c)%string = (a ++ (b ++ c))%string.
Proof.
  induction a as [|x a IH]; [reflexivity|].
  cbn [String.append]. rewrite IH. reflexivity.
Qed.

(** What [substring] finds is a part of the string, and a part of the
    string is found by [substring]. *)
Lemma substring_part (m : nat) :
  forall s part : string,
    substring m (String.length part) s = part ->
    exists before after, s = (before ++ part ++ after)%string.
Proof.
  assert (Hprefix : forall part s : string,
            substring 0 (String.length part) s = part ->
            exists after, s = (part ++ after)%string).
  { induction part as [|c part IH]; intros s Hsub.
    - exists s. reflexivity.
    - destruct s as [|c' s]; cbn [String.length substring] in Hsub; [discriminate|].
      injection Hsub as -> Hsub. destruct (IH s Hsub) as [after ->].
      exists after. reflexivity. }
  induction m as [|m IH]; intros s part Hsub.
  - destruct (Hprefix part s Hsub) as [after ->]. exists "", after. reflexivity.
  - destruct s as [|c s].
    + assert (Hpart : part = "") by (destruct part; [reflexivity|discriminate Hsub]).
      subst part. exists "", "". reflexivity.
    + cbn [substring] in Hsub. destruct (IH s part Hsub) as [before [after ->]].
      exists (String c before), after. reflexivity.
Qed.

Lemma part_substring (before part after : string) :
  substring (String.length before) (String.length part) (before ++ part ++ after)
  = part.
Proof.
  induction before as [|c before IH]; [|exact IH].
  cbn [String.length String.append].
  induction part as [|c part IH].
  - cbn [String.length]. destruct (""%string ++ after)%string; reflexivity.
  - cbn [String.length String.append substring]. rewrite IH. reflexivity.
Qed.

(** The test of [_unwrap] on a text tells whether 'Code:' is in it. *)
Lemma hasCode_containsCode (text : string) :
  RestClientJs.hasCode text = true <-> containsCode text.
Proof.
  unfold RestClientJs.hasCode, containsCode.
  destruct (String.index 0 "Code:" text) as [m|] eqn:Hindex.
  - split; [intros _|reflexivity].
    apply String.index_correct1 in Hindex. exact (substring_part m text "Code:" Hindex).
  - split; [discriminate|]. intros [before [after ->]]. exfalso.
    apply (String.index_correct3 0 (String.length before) _ _ Hindex);
      [discriminate|lia|].
    apply (part_substring before "Code:" after).
Qed.

(** A rejected request makes [_unwrap] throw, and what it throws. *)
Lemma _unwrap_Rejected {A : Type} (error : RestClientJs.AxiosError) :
  exists e,
    RestClientJs._unwrap (@RestClientJs.Rejected A error) = Thrown e
    /\ thrownFor error e.
Proof.
  assert (Hdetail : forall status message,
            (("Request failed with status " ++ RestClientJs.status_toString status
              ++ ".") ++ " " ++ ("Message: '" ++ message ++ "'."))%string
            = requestFailed status message).
  { intros status message. unfold requestFailed.
    rewrite string_append_assoc. cbn [String.append].
    rewrite string_append_assoc. reflexivity. }
  destruct error as [status statusText [text|hasCodeItem text|]|];
    cbn [RestClientJs._unwrap RestClientJs.messageOf].
  - eexists. split; [reflexivity|]. rewrite Hdetail.
    destruct (RestClientJs.hasCode text) eqn:Hcode.
    + apply thrownFor_code. apply hasCode_containsCode. exact Hcode.
    + apply thrownFor_statusText. intros Hcontains.
      apply hasCode_containsCode in Hcontains. congruence.
  - eexists. split; [reflexivity|]. rewrite Hdetail. apply thrownFor_array.
  - eexists. split; [reflexivity|]. apply thrownFor_other.
  - eexists. split; [reflexivity|]. apply thrownFor_NoResponse.
Qed.

Lemma _unwrap_throws {A : Type} (request : RestClientJs.Settled A) (e : Exception) :
  RestClientJs._unwrap request = Thrown e -> exists error, thrownFor error e.
Proof.
  destruct request as [data|error]; [discriminate|].
  destruct (@_unwrap_Rejected A error) as [e' [Hrun Hfor]].
  rewrite Hrun. intros He. injection He as <-. exists error. exact Hfor.
Qed.

(** The wallet over the REST client sees no other exception of it. *)
Lemma asClient_throws (this : RestClientJs.t) (axios : RestClientJs.Axios) :
  clientThrows (fun e => exists error, thrownFor error e)
    (RestClientJs.asClient this axios).
Proof.
  unfold clientThrows, RestClientJs.asClient; cbn.
  repeat split; intros log a e.
  - unfold RestClientJs.getAddress, RestClientJs._get.
    destruct (RestClientJs._unwrap _) as [info|e'] eqn:Hrun; cbn; [discriminate|].
    intros H. injection H as <-. exact (_unwrap_throws _ _ Hrun).
  - unfold RestClientJs.getBalance, RestClientJs.getAddress, RestClientJs._get.
    destruct (RestClientJs._unwrap _) as [info|e'] eqn:Hrun; [discriminate|].
    intros H. injection H as <-. exact (_unwrap_throws _ _ Hrun).
  - apply _unwrap_throws.
  - apply _unwrap_throws.
Qed.

(** X14. Each of the four methods of the REST client sends one request, to
    the base URL followed by /addr/<address>, /addr/<address>/utxo or
    /tx/send, and returns exactly when that request is fulfilled, giving the
    data of the response (for [getBalance], the sum of the confirmed and
    the unconfirmed balance).  When the request is rejected without a
    response it throws the [TopayError] 'Communication error: Service
    unavailable.'; when it is rejected with a response whose data is a text,
    the [TopayError] titled 'Communication error' with the detail 'Request
    failed with status <status>. Message: '<message>'.', where the message
    is the data when 'Code:' occurs in it and the status text otherwise;
    for data that is an array, likewise by whether 'Code:' is one of its
    elements; and for data of any other shape a [TypeError], since
    [data.indexOf] is then no function. *)
Theorem restClient_outcomes (this : RestClientJs.t) (axios : RestClientJs.Axios)
    (log : list Request) (address rawtx : string) :
  let base := RestClientJs.baseUrl this in
  answersFor (RestClientJs.get_addr axios log (base ++ "/addr/" ++ address)%string)
    (fun info => info)
    (RestClientJs.getAddress this axios log address)
  /\ answersFor (RestClientJs.get_addr axios log (base ++ "/addr/" ++ address)%string)
       (fun info => RestClientJs.balanceSat info
                    + RestClientJs.unconfirmedBalanceSat info)
       (RestClientJs.getBalance this axios log address)
  /\ answersFor
       (RestClientJs.get_utxo axios log (base ++ "/addr/" ++ address ++ "/utxo")%string)
       (fun utxoSet => utxoSet)
       (RestClientJs.getUtxoSet this axios log address)
  /\ answersFor (RestClientJs.post_send axios log (base ++ "/tx/send")%string rawtx)
       (fun txid => txid)
       (RestClientJs.sendTransaction this axios log rawtx).
Proof.
  cbv zeta.
  unfold answersFor, RestClientJs.getBalance, RestClientJs.getAddress,
    RestClientJs.getUtxoSet, RestClientJs.sendTransaction, RestClientJs._get,
    RestClientJs._post.
  repeat split.
  - destruct (RestClientJs.get_addr axios log _) as [info|error];
      [reflexivity|apply _unwrap_Rejected].
  - destruct (RestClientJs.get_addr axios log _) as [info|error]; [reflexivity|].
    destruct (@_unwrap_Rejected RestClientJs.AddressInfo error) as [e [Hrun Hfor]].
    exists e. rewrite Hrun. split; [reflexivity|exact Hfor].
  - destruct (RestClientJs.get_utxo axios log _) as [utxoSet|error];
      [reflexivity|apply _unwrap_Rejected].
  - destruct (RestClientJs.post_send axios log _ rawtx) as [txid|error];
      [reflexivity|apply _unwrap_Rejected].
Qed.

Context {lib : Bitcoincashjs}.

(** X15. Over the REST client built for a base URL, when the re-scan
    returns on a wallet index of at least 1 and the server answers the
    request for <base URL without a final slash>/addr/<address at wallet
    index - 1>, [getBalance] of the wallet returns the confirmed plus the
    unconfirmed balance of that answer. *)
Theorem getBalance_over_restClient (b : string) (axios : RestClientJs.Axios)
    (st st1 : State) (info : RestClientJs.AddressInfo) :
  let this := RestClientJs.new_TopayRestClient b in
  let restClient := RestClientJs.asClient this axios in
  let lastUsed := addressAt (_walletIndex st1 - 1) in
  walletIndex_inv st ->
  _updateWalletIndex restClient st = (Returned tt, st1) ->
  1 <= _walletIndex st1 ->
  RestClientJs.get_addr axios (requests st1)
    (RestClientJs.stripTrailingSlash b ++ "/addr/" ++ lastUsed)%string
  = RestClientJs.Fulfilled info ->
  getBalance restClient st
  = (Returned (RestClientJs.balanceSat info + RestClientJs.unconfirmedBalanceSat info),
     {| _walletIndex := _walletIndex st1;
        requests := requests st1 ++ [GetBalance lastUsed] |}).
Proof.
  intros this restClient lastUsed Hinv Hscan Hused Hinfo.
  pose proof (_updateWalletIndex_inv restClient st Hinv) as Hinv1.
  rewrite Hscan in Hinv1. cbn [snd] in Hinv1.
  unfold getBalance. rewrite (bind_Returned _ _ _ _ _ Hscan). cbn beta.
  rewrite bind_get_walletIndex.
  destruct (Z.eqb_spec (_walletIndex st1) 0) as [Hzero|_]; [lia|].
  unfold bind at 1. rewrite _getAddress_eq.
  replace (index_inRange (_walletIndex st1 - 1)) with true
    by (symmetry; apply index_inRange_true; destruct Hinv1; lia).
  unfold bind, await, ret. fold lastUsed.
  assert (Hbalance : TopayRestClient.getBalance restClient (requests st1) lastUsed
                     = Returned (RestClientJs.balanceSat info
                                 + RestClientJs.unconfirmedBalanceSat info)).
  { unfold restClient. cbn [RestClientJs.asClient TopayRestClient.getBalance].
    unfold RestClientJs.getBalance, RestClientJs.getAddress, RestClientJs._get, this.
    cbn [RestClientJs.new_TopayRestClient RestClientJs.baseUrl].
    rewrite Hinfo. reflexivity. }
  rewrite Hbalance. reflexivity.
Qed.

End RestClient.

(** ** The further statements on the wallet of the tests *)

(** The scan of a new wallet against three used addresses asks for the
    addresses at the indices 0, 1, 2 and 3, in this order. *)
Lemma updateWalletIndex_requests_witness :
  walletIndex_inv new_TopayWallet
  /\ exists n : nat,
       requests (snd (_updateWalletIndex (lib := Fixture.lib)
                        (Fixture.dirtyClient 3 0) new_TopayWallet))
       = scanRequests (lib := Fixture.lib) 0 n
       /\ Z.of_nat n <= 1000.
Proof.
  assert (Hinv : walletIndex_inv new_TopayWallet)
    by (vm_compute; split; discriminate).
  split; [exact Hinv|].
  destruct (updateWalletIndex_requests (lib := Fixture.lib) (Fixture.dirtyClient 3 0)
              new_TopayWallet Hinv) as [n [Hreq [Hbound _]]].
  exists n. split; [exact Hreq|exact Hbound].
Defined.

(** With no server to answer, the scan of a new wallet throws the
    communication error of its first request and stays on index 0. *)
Lemma updateWalletIndex_ending_witness :
  let restClient :=
    RestClientJs.asClient (RestClientJs.new_TopayRestClient FixtureRest.API)
      FixtureRest.offline in
  let scanned := _updateWalletIndex (lib := Fixture.lib) restClient new_TopayWallet in
  walletIndex_inv new_TopayWallet
  /\ fst scanned = Thrown (TopayError "Communication error" "Service unavailable.")
  /\ _walletIndex (snd scanned) = 0
  /\ requests (snd scanned) = [GetAddress Fixture.FIRST_ADDRESS].
Proof.
  cbv zeta.
  assert (Hinv : walletIndex_inv new_TopayWallet)
    by (vm_compute; split; discriminate).
  split; [exact Hinv|].
  pose proof (updateWalletIndex_ending (lib := Fixture.lib)
                (RestClientJs.asClient (RestClientJs.new_TopayRestClient FixtureRest.API)
                   FixtureRest.offline)
                new_TopayWallet Hinv) as Hend.
  cbv zeta in Hend.
  destruct Hend as [[Hreturned _]|[_ [before [Hlast Hanswer]]]].
  - vm_compute in Hreturned. discriminate Hreturned.
  - clear Hlast Hanswer before. vm_compute. repeat split.
Defined.

(** Against three used addresses [getReceiveAddress] returns the fourth. *)
Lemma getReceiveAddress_first_unused_witness :
  answersHistory (Fixture.dirtyClient 3 0) (Fixture.dirtyHistory 3)
  /\ walletIndex_inv new_TopayWallet
  /\ exists r,
       fst (getReceiveAddress (lib := Fixture.lib) (Fixture.dirtyClient 3 0)
              new_TopayWallet)
       = Returned (addressAt (lib := Fixture.lib) r)
       /\ firstUnusedFrom (lib := Fixture.lib) (Fixture.dirtyHistory 3) 0 r.
Proof.
  assert (Hinv : walletIndex_inv new_TopayWallet)
    by (vm_compute; split; discriminate).
  assert (Hclient : answersHistory (Fixture.dirtyClient 3 0) (Fixture.dirtyHistory 3))
    by (intros log a; reflexivity).
  split; [exact Hclient|]. split; [exact Hinv|].
  destruct (getReceiveAddress_first_unused (lib := Fixture.lib) (Fixture.dirtyClient 3 0)
              (Fixture.dirtyHistory 3) new_TopayWallet Hclient Hinv)
    as [r [st' [Hrun [_ [Hfirst _]]]]].
  exists r. rewrite Hrun. split; [reflexivity|exact Hfirst].
Defined.


(** 5000 satoshis cannot be sent from inputs of 3000. *)
Lemma send_insufficient_funds_witness :
  let restClient := Fixture.dirtyClient 1 0 in
  walletIndex_inv new_TopayWallet
  /\ send_arguments_ok (lib := Fixture.lib) Fixture.THIRD_ADDRESS
       (JsInteger 5000) (JsInteger 500) = true
  /\ fst (send (lib := Fixture.lib) restClient Fixture.THIRD_ADDRESS
            (JsInteger 5000) (JsInteger 500) new_TopayWallet)
     = Thrown (TopayError "Cannot create transaction" "Insufficient funds.")
  /\ requests (snd (send (lib := Fixture.lib) restClient Fixture.THIRD_ADDRESS
                      (JsInteger 5000) (JsInteger 500) new_TopayWallet))
     = [GetAddress Fixture.FIRST_ADDRESS; GetAddress Fixture.SECOND_ADDRESS;
        GetUtxoSet Fixture.FIRST_ADDRESS].
Proof.
  cbv zeta.
  assert (Hinv : walletIndex_inv new_TopayWallet)
    by (vm_compute; split; discriminate).
  assert (Hok : send_arguments_ok (lib := Fixture.lib) Fixture.THIRD_ADDRESS
                  (JsInteger 5000) (JsInteger 500) = true)
    by (vm_compute; reflexivity).
  split; [exact Hinv|]. split; [exact Hok|].
  destruct (send_insufficient_funds (lib := Fixture.lib) (Fixture.dirtyClient 1 0)
              Fixture.THIRD_ADDRESS (JsInteger 5000) (JsInteger 500)
              new_TopayWallet
              {| _walletIndex := 1;
                 requests := [GetAddress Fixture.FIRST_ADDRESS;
                              GetAddress Fixture.SECOND_ADDRESS] |}
              Fixture.UTXO_SET Hinv Hok
              ltac:(vm_compute; reflexivity)
              ltac:(vm_compute; discriminate)
              ltac:(vm_compute; reflexivity)) as [Hgiven _].
  rewrite (Hgiven 500 ltac:(vm_compute; reflexivity) ltac:(vm_compute; reflexivity)).
  split; vm_compute; reflexivity.
Defined.

(** A wallet whose first address is unused cannot spend. *)
Lemma spending_without_history_witness :
  send_arguments_ok (lib := Fixture.lib) Fixture.THIRD_ADDRESS
    (JsInteger 1500) JsUndefined = true
  /\ Address_isValid (Bitcoincashjs := Fixture.lib) Fixture.THIRD_ADDRESS = true
  /\ fst (send (lib := Fixture.lib) Fixture.emptyClient Fixture.THIRD_ADDRESS
            (JsInteger 1500) JsUndefined new_TopayWallet)
     = Thrown (IllegalArgumentError "index")
  /\ fst (widthraw (lib := Fixture.lib) Fixture.emptyClient Fixture.THIRD_ADDRESS
            new_TopayWallet)
     = Thrown (IllegalArgumentError "index").
Proof.
  assert (Hok : send_arguments_ok (lib := Fixture.lib) Fixture.THIRD_ADDRESS
                  (JsInteger 1500) JsUndefined = true)
    by (vm_compute; reflexivity).
  assert (Hvalid : Address_isValid (Bitcoincashjs := Fixture.lib) Fixture.THIRD_ADDRESS
                   = true) by (vm_compute; reflexivity).
  split; [exact Hok|]. split; [exact Hvalid|].
  destruct (spending_without_history (lib := Fixture.lib) Fixture.emptyClient
              Fixture.THIRD_ADDRESS (JsInteger 1500) JsUndefined new_TopayWallet
              {| _walletIndex := 0; requests := [GetAddress Fixture.FIRST_ADDRESS] |}
              ltac:(vm_compute; reflexivity) ltac:(reflexivity))
    as [Hsend Hwidthraw].
  rewrite (Hsend Hok), (Hwidthraw Hvalid). split; reflexivity.
Defined.



(** Over the REST client, with no server to answer, [initialize] throws
    the error of the client for a request without response. *)
Lemma wallet_exceptions_witness :
  let restClient :=
    RestClientJs.asClient (RestClientJs.new_TopayRestClient FixtureRest.API)
      FixtureRest.offline in
  let P := fun e => exists error, thrownFor error e in
  clientThrows P restClient
  /\ fst (initialize (lib := Fixture.lib) restClient new_TopayWallet)
     = Thrown (TopayError "Communication error" "Service unavailable.")
  /\ P (TopayError "Communication error" "Service unavailable.").
Proof.
  cbv zeta.
  assert (Hclient : clientThrows (fun e => exists error, thrownFor error e)
                      (RestClientJs.asClient
                         (RestClientJs.new_TopayRestClient FixtureRest.API)
                         FixtureRest.offline))
    by apply asClient_throws.
  assert (Hinv : walletIndex_inv new_TopayWallet)
    by (vm_compute; split; discriminate).
  assert (Hrun : initialize (lib := Fixture.lib)
                   (RestClientJs.asClient
                      (RestClientJs.new_TopayRestClient FixtureRest.API)
                      FixtureRest.offline) new_TopayWallet
                 = (Thrown (TopayError "Communication error" "Service unavailable."),
                    {| _walletIndex := 0;
                       requests := [GetAddress Fixture.FIRST_ADDRESS] |}))
    by (vm_compute; reflexivity).
  split; [exact Hclient|]. split; [rewrite Hrun; reflexivity|].
  exact (proj1 (wallet_exceptions (lib := Fixture.lib) _ _ Hclient)
           new_TopayWallet _ _ Hinv (or_introl Hrun)).
Defined.

(** Against the stubs of the tests, whose one exception is a communication
    error, [widthraw] never throws for a lack of funds. *)
Lemma widthraw_exceptions_witness :
  let unavailable := fun e => e = TopayError "Communication error" "Service unavailable." in
  clientThrows unavailable (Fixture.dirtyClient 1 0)
  /\ ~ unavailable insufficientFunds
  /\ forall st st',
       widthraw (lib := Fixture.lib) (Fixture.dirtyClient 1 0) Fixture.THIRD_ADDRESS st
       <> (Thrown insufficientFunds, st').
Proof.
  cbv zeta.
  assert (Hclient : clientThrows
                      (fun e => e = TopayError "Communication error" "Service unavailable.")
                      (Fixture.dirtyClient 1 0)).
  { unfold clientThrows, Fixture.dirtyClient, Fixture.unavailable; cbn.
    repeat split; intros log a e; try discriminate;
      match goal with
      | |- (if ?c then _ else _) = _ -> _ => destruct c
      end; try discriminate; intros H; injection H as <-; reflexivity. }
  assert (Hother : ~ insufficientFunds
                     = TopayError "Communication error" "Service unavailable.")
    by discriminate.
  split; [exact Hclient|]. split; [exact Hother|].
  exact (proj2 (widthraw_exceptions (lib := Fixture.lib) (Fixture.dirtyClient 1 0) _
                  Fixture.THIRD_ADDRESS Hclient) Hother).
Defined.

(** The base URL of the scenarios, with and without a slash at its end. *)
Lemma restClient_trailing_slash_witness :
  RestClientJs.endsWithSlash FixtureRest.API = false
  /\ RestClientJs.new_TopayRestClient (FixtureRest.API ++ "/")
     = RestClientJs.new_TopayRestClient FixtureRest.API.
Proof.
  assert (Hb : RestClientJs.endsWithSlash FixtureRest.API = false)
    by (vm_compute; reflexivity).
  split; [exact Hb|].
  exact (proj1 (restClient_trailing_slash FixtureRest.API FixtureRest.offline []
                  Fixture.FIRST_ADDRESS Hb)).
Defined.

(** The server of the scenarios holds 2900 confirmed and 100 unconfirmed
    satoshis on the first address: the balance of the wallet is 3000. *)
Lemma getBalance_over_restClient_witness :
  let restClient :=
    RestClientJs.asClient (RestClientJs.new_TopayRestClient (FixtureRest.API ++ "/"))
      FixtureRest.axios in
  walletIndex_inv new_TopayWallet
  /\ fst (getBalance (lib := Fixture.lib) restClient new_TopayWallet) = Returned 3000.
Proof.
  cbv zeta.
  assert (Hinv : walletIndex_inv new_TopayWallet)
    by (vm_compute; split; discriminate).
  split; [exact Hinv|].
  pose proof (getBalance_over_restClient (lib := Fixture.lib) (FixtureRest.API ++ "/")
                FixtureRest.axios new_TopayWallet
                {| _walletIndex := 1;
                   requests := [GetAddress Fixture.FIRST_ADDRESS;
                                GetAddress Fixture.SECOND_ADDRESS] |}
                {| RestClientJs.info_transactions := ["tx"];
                   RestClientJs.balanceSat := 2900;
                   RestClientJs.unconfirmedBalanceSat := 100 |}) as Hrun.
  cbv zeta in Hrun.
  rewrite (Hrun Hinv ltac:(vm_compute; reflexivity) ltac:(vm_compute; discriminate)
             ltac:(vm_compute; reflexivity)).
  reflexivity.
Defined.
